(** * ExecutionTracker: a shallow embedding of
      [main/src/services/executionTracker.ts]

    The tracker brackets one prompt execution of a session inside a git
    worktree: [startExecution] records the commit the run starts from,
    [endExecution] drives the commit policy, captures the diff of the run,
    persists it and announces completion, [cancelExecution] drops the
    tracking state.

    The class talks to three collaborators that live outside the file
    (the session manager, the git diff manager and the commit manager),
    to the listeners registered on its [EventEmitter] and to an optional
    logger.  None of them is part of the embedded file, so they are taken
    as an environment of functions over an abstract world [W]; every call
    may return or throw, and every call is written to a trace together
    with its arguments and its outcome.  The results below hold for every
    environment.

    Not modelled: the wall-clock [timestamp] fields of the session output
    messages, the text of log lines (their level and position are kept),
    and the interleaving of two asynchronous calls on one tracker: each
    [await] is run to completion, as a caller that serialises the calls of
    a session sees it. *)

From Stdlib Require Import ZArith Sorted.
From stdpp Require Import gmap strings list fin_maps pretty.

Set Warnings "-register-all,-clear-no-such-hyp".
Open Scope Z_scope.

(** ** Values thrown and returned *)

(** Whatever a JavaScript call throws; only its identity matters here. *)
Inductive Exn : Type :=
| Thrown (what : string).

Inductive Outcome (A : Type) : Type :=
| Returned (a : A)
| Threw (e : Exn).
Arguments Returned {A} a.
Arguments Threw {A} e.

Definition returned {A} (o : Outcome A) : bool :=
  match o with Returned _ => true | Threw _ => false end.

(** ** JSON values, as [JSON.parse] produces them *)

Inductive JVal : Type :=
| JNull
| JBool (b : bool)
| JNum (literal : string)
| JStr (s : string)
| JArr (items : list JVal)
| JObj (fields : list (string * JVal)).

(** A plain JavaScript object used as a record: property name to value. *)
Abbreviation JsObject := (gmap string JVal).

(** Own enumerable properties of the fields of a parsed object, in source
    order: a later duplicate key overwrites an earlier one. *)
Fixpoint props_of_fields (fs : list (string * JVal)) (acc : JsObject) : JsObject :=
  match fs with
  | [] => acc
  | (k, v) :: rest => props_of_fields rest (<[k := v]> acc)
  end.

Fixpoint props_of_items (i : nat) (xs : list JVal) (acc : JsObject) : JsObject :=
  match xs with
  | [] => acc
  | x :: rest => props_of_items (S i) rest (<[pretty i := x]> acc)
  end.

Fixpoint props_of_chars (i : nat) (s : string) (acc : JsObject) : JsObject :=
  match s with
  | EmptyString => acc
  | String c rest =>
      props_of_chars (S i) rest (<[pretty i := JStr (String c EmptyString)]> acc)
  end.

(** What the spread [{ ...v }] copies out of a value: the fields of an
    object, the indexed elements of an array or of a string, and nothing
    for [null], booleans and numbers. *)
Definition spread (v : JVal) : JsObject :=
  match v with
  | JObj fs => props_of_fields fs ∅
  | JArr xs => props_of_items 0 xs ∅
  | JStr s => props_of_chars 0 s ∅
  | JNull | JBool _ | JNum _ => ∅
  end.

(** ** Data model *)

Inductive CommitMode : Type :=
| structured
| checkpoint
| disabled.

#[global] Instance CommitMode_eq_dec : EqDecision CommitMode.
Proof. solve_decision. Defined.

Definition mode_name (m : CommitMode) : string :=
  match m with
  | structured => "structured"
  | checkpoint => "checkpoint"
  | disabled => "disabled"
  end.

(** [interface ExecutionContext] (lines 12-19). *)
Record ExecutionContext : Type := mkContext {
  ctx_sessionId : string;
  ctx_worktreePath : string;
  ctx_promptMarkerId : option Z;
  ctx_beforeCommitHash : string;
  ctx_executionSequence : Z;
  ctx_prompt : option string
}.

(** The part of a session record that [endExecution] reads. *)
Record Session : Type := mkSession {
  commitMode : option CommitMode;
  commitModeSettings : option string;
  autoCommit : option bool
}.

Record GitDiffStats : Type := mkStats {
  additions : Z;
  deletions : Z;
  filesChanged : Z
}.

Record GitDiffResult : Type := mkDiff {
  diff : string;
  stats : GitDiffStats;
  changedFiles : list string;
  beforeHash : option string;
  afterHash : option string
}.

(** [CreateExecutionDiffData], built at lines 240-251. *)
Record CreateExecutionDiffData : Type := mkDiffData {
  session_id : string;
  prompt_marker_id : option Z;
  execution_sequence : Z;
  git_diff : string;
  files_changed : list string;
  stats_additions : Z;
  stats_deletions : Z;
  stats_files_changed : Z;
  before_commit_hash : option string;
  after_commit_hash : option string
}.

(** A persisted execution diff, as the session manager hands it back. *)
Record ExecutionDiff : Type := mkRecord {
  rec_id : Z;
  rec_session_id : string;
  rec_execution_sequence : Z;
  rec_git_diff : option string;
  rec_files_changed : option (list string);
  rec_stats_additions : Z;
  rec_stats_deletions : Z;
  rec_stats_files_changed : Z;
  rec_before_commit_hash : option string;
  rec_after_commit_hash : option string
}.

(** Result of [handlePostPromptCommit] and of [waitForStructuredCommit]. *)
Record CommitResult : Type := mkCommitResult {
  success : bool;
  commitHash : option string;
  error : option string
}.

(** Events of the tracker's [EventEmitter]. *)
Inductive TrackerEvent : Type :=
| execution_started (sessionId : string) (executionSequence : Z)
| execution_completed (sessionId : string) (executionSequence : Z)
    (diffId : Z) (stats : GitDiffStats)
| execution_cancelled (sessionId : string) (executionSequence : Z).

Inductive Subtype : Type :=
| autocommit_error
| autocommit_success
| autocommit_mode
| autocommit_timeout
| autocommit_claude_success.

(** The [data] of a session output of type ['json']; its [type] is always
    ['system']. *)
Record SystemMessage : Type := mkMessage {
  msg_subtype : Subtype;
  msg_mode : CommitMode;
  msg_commit_hash : option string;
  msg_error : option string;
  msg_message : string
}.

Inductive LogLevel : Type :=
| verbose
| warn
| error_level.

(** ** Truthiness of the values the code tests *)

Definition truthy_string (s : string) : bool :=
  match s with EmptyString => false | String _ _ => true end.

Definition truthy_opt_string (o : option string) : bool :=
  match o with Some s => truthy_string s | None => false end.

(** ** The trace of a call *)

Inductive Effect : Type :=
| logged (lvl : LogLevel)
| console_log
| call_getNextExecutionSequence (sessionId : string) (r : Outcome Z)
| call_getSession (sessionId : string) (r : Outcome (option Session))
| call_addSessionOutput (sessionId : string) (data : SystemMessage)
    (r : Outcome unit)
| call_createExecutionDiff (data : CreateExecutionDiffData)
    (r : Outcome ExecutionDiff)
| call_getExecutionDiffs (sessionId : string) (r : Outcome (list ExecutionDiff))
| call_getCurrentCommitHash (worktreePath : string) (r : Outcome string)
| call_captureWorkingDirectoryDiff (worktreePath : string)
    (r : Outcome GitDiffResult)
| call_captureCommitDiff (worktreePath fromCommit toCommit : string)
    (r : Outcome GitDiffResult)
| call_combineDiffs (diffs : list GitDiffResult) (r : Outcome GitDiffResult)
| call_handlePostPromptCommit (sessionId worktreePath : string)
    (settings : JsObject) (prompt : option string) (executionSequence : Z)
    (r : Outcome CommitResult)
| call_waitForStructuredCommit (sessionId worktreePath : string)
    (timeoutMs : Z) (r : Outcome CommitResult)
| emitted (ev : TrackerEvent) (r : Outcome unit).

(** ** The collaborators *)

Record Env (W : Type) : Type := mkEnv {
  (* this.logger is optional *)
  hasLogger : bool;
  (* sessionManager *)
  getNextExecutionSequence : string → W → Outcome Z * W;
  getSession : string → W → Outcome (option Session) * W;
  addSessionOutput : string → SystemMessage → W → Outcome unit * W;
  createExecutionDiff : CreateExecutionDiffData → W → Outcome ExecutionDiff * W;
  getExecutionDiffs : string → W → Outcome (list ExecutionDiff) * W;
  (* gitDiffManager *)
  getCurrentCommitHash : string → W → Outcome string * W;
  captureWorkingDirectoryDiff : string → W → Outcome GitDiffResult * W;
  captureCommitDiff : string → string → string → W → Outcome GitDiffResult * W;
  combineDiffs : list GitDiffResult → W → Outcome GitDiffResult * W;
  (* commitManager *)
  handlePostPromptCommit :
    string → string → JsObject → option string → Z → W → Outcome CommitResult * W;
  waitForStructuredCommit : string → string → Z → W → Outcome CommitResult * W;
  (* the listeners registered on the emitter: a listener that throws makes
     [emit] throw *)
  listeners : TrackerEvent → W → Outcome unit * W;
  (* the built-in JSON.parse; [None] is a SyntaxError *)
  JSON_parse : string → option JVal
}.
Arguments hasLogger {W} _.
Arguments getNextExecutionSequence {W} _ _ _.
Arguments getSession {W} _ _ _.
Arguments addSessionOutput {W} _ _ _ _.
Arguments createExecutionDiff {W} _ _ _.
Arguments getExecutionDiffs {W} _ _ _.
Arguments getCurrentCommitHash {W} _ _ _.
Arguments captureWorkingDirectoryDiff {W} _ _ _.
Arguments captureCommitDiff {W} _ _ _ _ _.
Arguments combineDiffs {W} _ _ _.
Arguments handlePostPromptCommit {W} _ _ _ _ _ _ _.
Arguments waitForStructuredCommit {W} _ _ _ _ _.
Arguments listeners {W} _ _ _.
Arguments JSON_parse {W} _ _.

(** ** The tracker and its monad *)

(** The tracker object: its private map [activeExecutions] (line 22) and
    the world its collaborators act on. *)
Record Tracker (W : Type) : Type := mkTracker {
  activeExecutions : gmap string ExecutionContext;
  world : W
}.
Arguments mkTracker {W} _ _.
Arguments activeExecutions {W} _.
Arguments world {W} _.

(** A method body: from the tracker before the call to its outcome, the
    tracker after it and the effects it performed, oldest first. *)
Definition M (W A : Type) : Type :=
  Tracker W → Outcome A * Tracker W * list Effect.

Definition ret {W A} (a : A) : M W A := λ t, (Returned a, t, []).

Definition throw {W A} (e : Exn) : M W A := λ t, (Threw e, t, []).

Definition bind {W A B} (m : M W A) (k : A → M W B) : M W B :=
  λ t,
    match m t with
    | (Returned a, t1, tr1) =>
        match k a t1 with
        | (o, t2, tr2) => (o, t2, tr1 ++ tr2)
        end
    | (Threw e, t1, tr1) => (Threw e, t1, tr1)
    end.

(** [try { body } catch (error) { handler }] *)
Definition try_catch {W A} (body : M W A) (handler : Exn → M W A) : M W A :=
  λ t,
    match body t with
    | (Returned a, t1, tr1) => (Returned a, t1, tr1)
    | (Threw e, t1, tr1) =>
        match handler e t1 with
        | (o, t2, tr2) => (o, t2, tr1 ++ tr2)
        end
    end.

Declare Scope tracker_scope.
Delimit Scope tracker_scope with tracker.
Notation "'let*' x := m 'in' k" := (bind m (λ x, k))
  (at level 10, x pattern, m at level 100, k at level 200) : tracker_scope.
Notation "m ;; k" := (bind m (λ _, k))
  (at level 100, k at level 200, right associativity) : tracker_scope.
Open Scope tracker_scope.

(** The outcome, the final tracker and the trace of a run. *)
Definition outcome_of {W A} (r : Outcome A * Tracker W * list Effect) : Outcome A :=
  r.1.1.
Definition tracker_of {W A} (r : Outcome A * Tracker W * list Effect) : Tracker W :=
  r.1.2.
Definition trace_of {W A} (r : Outcome A * Tracker W * list Effect) : list Effect :=
  r.2.

(** ** The methods of [ExecutionTracker] *)

Section Methods.
Context {W : Type} (env : Env W).

(** [this.logger?.verbose(...)], [.warn(...)], [.error(...)]: a line is
    written only when a logger was given to the constructor. *)
Definition log_line (lvl : LogLevel) : list Effect :=
  if hasLogger env then [logged lvl] else [].

Definition log (lvl : LogLevel) : M W unit :=
  λ t, (Returned tt, t, log_line lvl).

Definition consoleLog : M W unit :=
  λ t, (Returned tt, t, [console_log]).

(** A call to a collaborator: it acts on the world, and the call is
    recorded with its outcome; a throw propagates. *)
Definition call {A} (f : W → Outcome A * W) (record : Outcome A → Effect) : M W A :=
  λ t,
    match f (world t) with
    | (r, w) => (r, mkTracker (activeExecutions t) w, [record r])
    end.

(** [this.emit(name, payload)] runs the listeners synchronously. *)
Definition emit (ev : TrackerEvent) : M W unit :=
  call (listeners env ev) (emitted ev).

(** The four operations on the [Map] the class uses. *)
Definition registry_get (sessionId : string) : M W (option ExecutionContext) :=
  λ t, (Returned (activeExecutions t !! sessionId), t, []).

Definition registry_has (sessionId : string) : M W bool :=
  λ t, (Returned (bool_decide (is_Some (activeExecutions t !! sessionId))), t, []).

Definition registry_set (sessionId : string) (context : ExecutionContext) : M W unit :=
  λ t, (Returned tt, mkTracker (<[sessionId := context]> (activeExecutions t)) (world t), []).

Definition registry_delete (sessionId : string) : M W unit :=
  λ t, (Returned tt, mkTracker (delete sessionId (activeExecutions t)) (world t), []).

(** [startExecution] (lines 35-62). *)
Definition startExecution (sessionId worktreePath : string)
    (promptMarkerId : option Z) (prompt : option string) : M W unit :=
  try_catch
    (log verbose ;;
     let* executionSequence :=
       call (getNextExecutionSequence env sessionId)
            (call_getNextExecutionSequence sessionId) in
     let* beforeCommitHash :=
       call (getCurrentCommitHash env worktreePath)
            (call_getCurrentCommitHash worktreePath) in
     log verbose ;;
     let context :=
       mkContext sessionId worktreePath promptMarkerId beforeCommitHash
                 executionSequence prompt in
     registry_set sessionId context ;;
     emit (execution_started sessionId executionSequence))
    (λ error, log error_level ;; throw error).

(** The settings [endExecution] starts from (lines 83-86). *)
Definition defaultSettings : JsObject :=
  <["checkpointPrefix" := JStr "checkpoint: "]> (<["mode" := JStr "checkpoint"]> ∅).

Definition setMode (m : CommitMode) (settings : JsObject) : JsObject :=
  <["mode" := JStr (mode_name m)]> settings.

(** Lines 82-109: the commit mode and its settings, from the session
    record ([None] when the session manager knows no such session). *)
Definition resolveCommitMode (session : option Session)
    : M W (CommitMode * JsObject) :=
  match (session ≫= commitMode : option CommitMode) with
  | Some mode =>
      log verbose ;;
      let settings := setMode mode defaultSettings in
      match (session ≫= commitModeSettings : option string) with
      | Some payload =>
          if truthy_string payload then
            match JSON_parse env payload with
            | Some parsedSettings =>
                let merged := setMode mode (spread parsedSettings ∪ settings) in
                log verbose ;;
                ret (mode, merged)
            | None =>
                log error_level ;;
                ret (mode, settings)
            end
          else ret (mode, settings)
      | None => ret (mode, settings)
      end
  | None =>
      match (session ≫= autoCommit : option bool) with
      | Some legacy =>
          let mode := if legacy then checkpoint else disabled in
          log verbose ;;
          ret (mode, setMode mode defaultSettings)
      | None => ret (checkpoint, defaultSettings)
      end
  end.

Definition sessionOutput (sessionId : string) (data : SystemMessage) : M W unit :=
  call (addSessionOutput env sessionId data) (call_addSessionOutput sessionId data).

Definition commitErrorMessage (mode : CommitMode) (r : CommitResult) : SystemMessage :=
  mkMessage autocommit_error mode None (error r)
    "Failed to create commit during Claude Code execution. Changes remain uncommitted. You may need to fix the issues and commit manually.".

Definition commitSuccessMessage (r : CommitResult) : SystemMessage :=
  mkMessage autocommit_success checkpoint (commitHash r) None
    "Checkpoint commit created successfully. Changes have been automatically committed during execution.".

Definition structuredModeMessage : SystemMessage :=
  mkMessage autocommit_mode structured None None
    "Structured mode active. Claude will handle commits when appropriate.".

Definition timeoutMessage (r : CommitResult) : SystemMessage :=
  mkMessage autocommit_timeout structured None
    (Some (if truthy_opt_string (error r) then default "" (error r)
           else "Timeout waiting for commit"))
    "Claude did not create a commit within the expected timeframe. Claude may have chosen not to commit, or may need more time.".

Definition claudeCommitMessage (r : CommitResult) : SystemMessage :=
  mkMessage autocommit_claude_success structured (commitHash r) None
    "Claude successfully created a commit according to your structured mode settings.".

(** Lines 122-174: what the session output is told about the commit. *)
Definition reportCommit (sessionId : string) (mode : CommitMode)
    (commitResult : CommitResult) : M W unit :=
  if negb (success commitResult) && truthy_opt_string (error commitResult) then
    consoleLog ;;
    sessionOutput sessionId (commitErrorMessage mode commitResult)
  else if success commitResult && negb (bool_decide (mode = disabled)) then
    match mode with
    | checkpoint =>
        consoleLog ;;
        sessionOutput sessionId (commitSuccessMessage commitResult)
    | structured =>
        sessionOutput sessionId structuredModeMessage
    | disabled => ret tt
    end
  else ret tt.

(** Lines 176-217: in structured mode, wait for the agent's own commit. *)
Definition awaitStructuredCommit (sessionId worktreePath : string)
    (mode : CommitMode) : M W unit :=
  if bool_decide (mode = structured) then
    log verbose ;;
    let* structuredCommitResult :=
      call (waitForStructuredCommit env sessionId worktreePath 5000)
           (call_waitForStructuredCommit sessionId worktreePath 5000) in
    if negb (success structuredCommitResult) then
      log warn ;;
      sessionOutput sessionId (timeoutMessage structuredCommitResult)
    else if truthy_opt_string (commitHash structuredCommitResult) then
      sessionOutput sessionId (claudeCommitMessage structuredCommitResult)
    else ret tt
  else ret tt.

(** Lines 219-237: the hash after the commit phase and the diff of the run. *)
Definition captureExecutionDiff (context : ExecutionContext) : M W GitDiffResult :=
  let* afterCommitHash :=
    call (getCurrentCommitHash env (ctx_worktreePath context))
         (call_getCurrentCommitHash (ctx_worktreePath context)) in
  if bool_decide (afterCommitHash = ctx_beforeCommitHash context) then
    let* executionDiff :=
      call (captureWorkingDirectoryDiff env (ctx_worktreePath context))
           (call_captureWorkingDirectoryDiff (ctx_worktreePath context)) in
    log verbose ;;
    ret executionDiff
  else
    let* executionDiff :=
      call (captureCommitDiff env (ctx_worktreePath context)
              (ctx_beforeCommitHash context) afterCommitHash)
           (call_captureCommitDiff (ctx_worktreePath context)
              (ctx_beforeCommitHash context) afterCommitHash) in
    log verbose ;;
    ret executionDiff.

Definition diffDataOf (sessionId : string) (context : ExecutionContext)
    (executionDiff : GitDiffResult) : CreateExecutionDiffData :=
  {| session_id := sessionId;
     prompt_marker_id := ctx_promptMarkerId context;
     execution_sequence := ctx_executionSequence context;
     git_diff := diff executionDiff;
     files_changed := changedFiles executionDiff;
     stats_additions := additions (stats executionDiff);
     stats_deletions := deletions (stats executionDiff);
     stats_files_changed := filesChanged (stats executionDiff);
     before_commit_hash := beforeHash executionDiff;
     after_commit_hash := afterHash executionDiff |}.

(** Lines 239-268: persist the record, announce completion, release the
    context. *)
Definition persistAndComplete (sessionId : string) (context : ExecutionContext)
    (executionDiff : GitDiffResult) : M W unit :=
  let diffData := diffDataOf sessionId context executionDiff in
  let* createdDiff :=
    call (createExecutionDiff env diffData) (call_createExecutionDiff diffData) in
  log verbose ;;
  emit (execution_completed sessionId (ctx_executionSequence context)
          (rec_id createdDiff) (stats executionDiff)) ;;
  registry_delete sessionId.

(** Lines 75-268: the body of [endExecution] once a context was found. *)
Definition endTracked (sessionId : string) (context : ExecutionContext) : M W unit :=
  log verbose ;;
  let* session := call (getSession env sessionId) (call_getSession sessionId) in
  log verbose ;;
  let* resolved := resolveCommitMode session in
  let mode := resolved.1 in
  let settings := resolved.2 in
  log verbose ;;
  let* commitResult :=
    call (handlePostPromptCommit env sessionId (ctx_worktreePath context)
            settings (ctx_prompt context) (ctx_executionSequence context))
         (call_handlePostPromptCommit sessionId (ctx_worktreePath context)
            settings (ctx_prompt context) (ctx_executionSequence context)) in
  reportCommit sessionId mode commitResult ;;
  awaitStructuredCommit sessionId (ctx_worktreePath context) mode ;;
  let* executionDiff := captureExecutionDiff context in
  persistAndComplete sessionId context executionDiff.

(** [endExecution] (lines 67-275). *)
Definition endExecution (sessionId : string) : M W unit :=
  try_catch
    (let* context := registry_get sessionId in
     match context with
     | None => log warn ;; ret tt
     | Some context => endTracked sessionId context
     end)
    (λ error, log error_level ;; registry_delete sessionId ;; throw error).

(** [cancelExecution] (lines 280-287). *)
Definition cancelExecution (sessionId : string) : M W unit :=
  let* context := registry_get sessionId in
  match context with
  | Some context =>
      log verbose ;;
      registry_delete sessionId ;;
      emit (execution_cancelled sessionId (ctx_executionSequence context))
  | None => ret tt
  end.

(** [isTracking] (lines 292-294) and [getExecutionContext] (299-301). *)
Definition isTracking (sessionId : string) : M W bool :=
  registry_has sessionId.

Definition getExecutionContext (sessionId : string) : M W (option ExecutionContext) :=
  registry_get sessionId.

(** The record-to-diff conversion of lines 320-330. *)
Definition toGitDiffResult (exec : ExecutionDiff) : GitDiffResult :=
  {| diff := default "" (rec_git_diff exec);
     stats := mkStats (rec_stats_additions exec) (rec_stats_deletions exec)
                      (rec_stats_files_changed exec);
     changedFiles := default [] (rec_files_changed exec);
     beforeHash := rec_before_commit_hash exec;
     afterHash := rec_after_commit_hash exec |}.

Definition includes (ids : list Z) (id : Z) : bool :=
  bool_decide (id ∈ ids).

(** Lines 312-316. *)
Definition selectExecutions (executions : list ExecutionDiff)
    (executionIds : option (list Z)) : list ExecutionDiff :=
  match executionIds with
  | Some ids =>
      if bool_decide (0 < Z.of_nat (length ids))
      then List.filter (λ exec, includes ids (rec_id exec)) executions
      else executions
  | None => executions
  end.

(** [getCombinedDiff] (lines 306-335). *)
Definition getCombinedDiff (sessionId : string) (executionIds : option (list Z))
    : M W GitDiffResult :=
  let* executions :=
    call (getExecutionDiffs env sessionId) (call_getExecutionDiffs sessionId) in
  let filteredExecutions := selectExecutions executions executionIds in
  let diffs :=
    map toGitDiffResult
      (List.filter (λ exec, truthy_opt_string (rec_git_diff exec)) filteredExecutions) in
  call (combineDiffs env diffs) (call_combineDiffs diffs).

End Methods.

(** ** Reading a trace *)

Inductive Kind : Type :=
| KLog | KSequence | KSession | KOutput | KPersist | KQuery | KHash
| KCapture | KCombine | KCommit | KWait | KEmit.

#[global] Instance Kind_eq_dec : EqDecision Kind.
Proof. solve_decision. Defined.

Definition kind_of (ef : Effect) : Kind :=
  match ef with
  | logged _ | console_log => KLog
  | call_getNextExecutionSequence _ _ => KSequence
  | call_getSession _ _ => KSession
  | call_addSessionOutput _ _ _ => KOutput
  | call_createExecutionDiff _ _ => KPersist
  | call_getExecutionDiffs _ _ => KQuery
  | call_getCurrentCommitHash _ _ => KHash
  | call_captureWorkingDirectoryDiff _ _ | call_captureCommitDiff _ _ _ _ => KCapture
  | call_combineDiffs _ _ => KCombine
  | call_handlePostPromptCommit _ _ _ _ _ _ => KCommit
  | call_waitForStructuredCommit _ _ _ _ => KWait
  | emitted _ _ => KEmit
  end.

(** The effects of one kind, in the order they happened. *)
Definition only (k : Kind) (tr : list Effect) : list Effect :=
  List.filter (λ ef, bool_decide (kind_of ef = k)) tr.

(** The events handed to [emit]. *)
Definition events_of (tr : list Effect) : list TrackerEvent :=
  flat_map (λ ef, match ef with emitted ev _ => [ev] | _ => [] end) tr.

(** The records handed to [createExecutionDiff]. *)
Definition persisted_of (tr : list Effect) : list CreateExecutionDiffData :=
  flat_map (λ ef, match ef with call_createExecutionDiff d _ => [d] | _ => [] end) tr.

(** The subtypes of the messages handed to [addSessionOutput]. *)
Definition subtypes_of (tr : list Effect) : list Subtype :=
  flat_map (λ ef, match ef with
                  | call_addSessionOutput _ data _ => [msg_subtype data]
                  | _ => []
                  end) tr.

(** The calls to collaborators and listeners: the trace without its log
    lines. *)
Definition calls (tr : list Effect) : list Effect :=
  List.filter (λ ef, negb (bool_decide (kind_of ef = KLog))) tr.

(** ** The resolution of the commit mode, in the words of the specification

    1. an explicit [commitMode] is used; 2. else a legacy [autoCommit] maps
    [true] to checkpoint and [false] to disabled; 3. else checkpoint. *)
Definition spec_commitMode (session : option Session) : CommitMode :=
  match session with
  | Some s =>
      match commitMode s, autoCommit s with
      | Some explicit, _ => explicit
      | None, Some true => checkpoint
      | None, Some false => disabled
      | None, None => checkpoint
      end
  | None => checkpoint
  end.

(** The settings that go with it: the defaults, the serialized settings of
    the session merged over them when an explicit mode comes with a payload
    that parses, and the [mode] entry forced to the resolved mode. *)
Definition spec_settings (parse : string → option JVal) (session : option Session)
    : JsObject :=
  match session with
  | Some s =>
      match commitMode s, autoCommit s with
      | Some explicit, _ =>
          match commitModeSettings s with
          | Some payload =>
              if truthy_string payload then
                match parse payload with
                | Some parsed => setMode explicit (spread parsed ∪ defaultSettings)
                | None => setMode explicit defaultSettings
                end
              else setMode explicit defaultSettings
          | None => setMode explicit defaultSettings
          end
      | None, Some true => setMode checkpoint defaultSettings
      | None, Some false => setMode disabled defaultSettings
      | None, None => defaultSettings
      end
  | None => defaultSettings
  end.

(** The diff capture that follows a hash re-read that returned [h]. *)
Definition capture_call (context : ExecutionContext) (h : string)
    (r : Outcome GitDiffResult) : Effect :=
  if bool_decide (h = ctx_beforeCommitHash context)
  then call_captureWorkingDirectoryDiff (ctx_worktreePath context) r
  else call_captureCommitDiff (ctx_worktreePath context)
         (ctx_beforeCommitHash context) h r.

(** ** An in-memory double of the collaborators

    One repository with a current commit and a list of uncommitted files,
    one session, a table of persisted diffs.  It is what the examples
    below run the tracker against. *)

Record Repo : Type := mkRepo {
  repo_path : string;
  repo_head : string;
  repo_dirty : list string;
  repo_committed : list string;
  repo_locked : bool;
  repo_sequence : Z;
  repo_session : option Session;
  repo_records : list ExecutionDiff;
  repo_agent_commit : option string
}.

(** [repo_dirty]: the files edited and not committed; [repo_committed]:
    the files of the last commit made during the run; [repo_locked]: git
    refuses to commit; [repo_agent_commit]: the commit the agent makes
    while it is waited for, if any. *)
Definition commitAll (h : string) (w : Repo) : Repo :=
  mkRepo (repo_path w) h [] (repo_dirty w) (repo_locked w) (repo_sequence w)
         (repo_session w) (repo_records w) None.

Definition quote : string :=
  String (Ascii.Ascii false true false false false true false false) EmptyString.

(** The text [{"checkpointPrefix":"wip: "}]. *)
Definition prefix_payload : string :=
  "{" +:+ quote +:+ "checkpointPrefix" +:+ quote +:+ ":" +:+ quote +:+ "wip: "
      +:+ quote +:+ "}".

Definition demo_parse (text : string) : option JVal :=
  if bool_decide (text = prefix_payload)
  then Some (JObj [("checkpointPrefix", JStr "wip: ")])
  else if bool_decide (text = "null") then Some JNull
  else None.

Definition demo_hash (path : string) (w : Repo) : Outcome string * Repo :=
  if bool_decide (path = repo_path w)
  then (Returned (repo_head w), w)
  else (Threw (Thrown "not a git repository"), w).

Definition demo_diff_of (files : list string) (a b : option string) : GitDiffResult :=
  mkDiff (if files is [] then "" else "diff --git")
         (mkStats (Z.of_nat (length files)) 0 (Z.of_nat (length files)))
         files a b.

Definition demo_workdir_diff (path : string) (w : Repo) : Outcome GitDiffResult * Repo :=
  (Returned (demo_diff_of (repo_dirty w) (Some (repo_head w)) (Some (repo_head w))), w).

Definition demo_commit_diff (path a b : string) (w : Repo) : Outcome GitDiffResult * Repo :=
  (Returned (demo_diff_of (repo_committed w) (Some a) (Some b)), w).

Definition demo_commit (sessionId path : string) (settings : JsObject)
    (prompt : option string) (seq : Z) (w : Repo) : Outcome CommitResult * Repo :=
  match settings !! "mode" with
  | Some (JStr "checkpoint") =>
      match repo_dirty w with
      | [] => (Returned (mkCommitResult true None None), w)
      | _ :: _ =>
          if repo_locked w
          then (Returned (mkCommitResult false None (Some "index.lock exists")), w)
          else (Returned (mkCommitResult true (Some "b2") None), commitAll "b2" w)
      end
  | Some (JStr "structured") | Some (JStr "disabled") =>
      (Returned (mkCommitResult true None None), w)
  | _ => (Returned (mkCommitResult false None (Some "unknown commit mode")), w)
  end.

Definition demo_wait (sessionId path : string) (timeoutMs : Z) (w : Repo)
    : Outcome CommitResult * Repo :=
  match repo_agent_commit w with
  | Some h => (Returned (mkCommitResult true (Some h) None), commitAll h w)
  | None =>
      (Returned (mkCommitResult false None (Some "Timeout waiting for commit")), w)
  end.

Definition demo_create (d : CreateExecutionDiffData) (w : Repo)
    : Outcome ExecutionDiff * Repo :=
  let r := mkRecord (Z.of_nat (length (repo_records w)) + 1) (session_id d)
             (execution_sequence d) (Some (git_diff d)) (Some (files_changed d))
             (stats_additions d) (stats_deletions d) (stats_files_changed d)
             (before_commit_hash d) (after_commit_hash d) in
  (Returned r,
   mkRepo (repo_path w) (repo_head w) (repo_dirty w) (repo_committed w)
          (repo_locked w) (repo_sequence w) (repo_session w)
          (repo_records w ++ [r]) (repo_agent_commit w)).

Definition demo_sequence (sessionId : string) (w : Repo) : Outcome Z * Repo :=
  (Returned (repo_sequence w + 1),
   mkRepo (repo_path w) (repo_head w) (repo_dirty w) (repo_committed w)
          (repo_locked w) (repo_sequence w + 1) (repo_session w)
          (repo_records w) (repo_agent_commit w)).

Definition demo_combine (ds : list GitDiffResult) (w : Repo)
    : Outcome GitDiffResult * Repo :=
  (Returned (mkDiff (foldr (λ d acc, diff d +:+ acc) "" ds)
                    (mkStats (foldr (λ d acc, additions (stats d) + acc) 0 ds)
                             (foldr (λ d acc, deletions (stats d) + acc) 0 ds)
                             (foldr (λ d acc, filesChanged (stats d) + acc) 0 ds))
                    (foldr (λ d acc, changedFiles d ++ acc) [] ds) None None), w).

Definition demoEnv : Env Repo :=
  {| hasLogger := true;
     getNextExecutionSequence := demo_sequence;
     getSession := λ _ w, (Returned (repo_session w), w);
     addSessionOutput := λ _ _ w, (Returned tt, w);
     createExecutionDiff := demo_create;
     getExecutionDiffs := λ sid w,
       (Returned (List.filter (λ r, bool_decide (rec_session_id r = sid))
                              (repo_records w)), w);
     getCurrentCommitHash := demo_hash;
     captureWorkingDirectoryDiff := demo_workdir_diff;
     captureCommitDiff := demo_commit_diff;
     combineDiffs := demo_combine;
     handlePostPromptCommit := demo_commit;
     waitForStructuredCommit := demo_wait;
     listeners := λ _ w, (Returned tt, w);
     JSON_parse := demo_parse |}.

(** The same collaborators with a session store that cannot allocate a
    sequence number. *)
Definition lockedStoreEnv : Env Repo :=
  {| hasLogger := hasLogger demoEnv;
     getNextExecutionSequence := λ _ w, (Threw (Thrown "database is locked"), w);
     getSession := getSession demoEnv;
     addSessionOutput := addSessionOutput demoEnv;
     createExecutionDiff := createExecutionDiff demoEnv;
     getExecutionDiffs := getExecutionDiffs demoEnv;
     getCurrentCommitHash := getCurrentCommitHash demoEnv;
     captureWorkingDirectoryDiff := captureWorkingDirectoryDiff demoEnv;
     captureCommitDiff := captureCommitDiff demoEnv;
     combineDiffs := combineDiffs demoEnv;
     handlePostPromptCommit := handlePostPromptCommit demoEnv;
     waitForStructuredCommit := waitForStructuredCommit demoEnv;
     listeners := listeners demoEnv;
     JSON_parse := JSON_parse demoEnv |}.

(** The same collaborators with a listener that throws on every event. *)
Definition failingListenerEnv : Env Repo :=
  {| hasLogger := hasLogger demoEnv;
     getNextExecutionSequence := getNextExecutionSequence demoEnv;
     getSession := getSession demoEnv;
     addSessionOutput := addSessionOutput demoEnv;
     createExecutionDiff := createExecutionDiff demoEnv;
     getExecutionDiffs := getExecutionDiffs demoEnv;
     getCurrentCommitHash := getCurrentCommitHash demoEnv;
     captureWorkingDirectoryDiff := captureWorkingDirectoryDiff demoEnv;
     captureCommitDiff := captureCommitDiff demoEnv;
     combineDiffs := combineDiffs demoEnv;
     handlePostPromptCommit := handlePostPromptCommit demoEnv;
     waitForStructuredCommit := waitForStructuredCommit demoEnv;
     listeners := λ _ w, (Threw (Thrown "listener failed"), w);
     JSON_parse := JSON_parse demoEnv |}.

(** A repository at commit [a1] in [/repo] with the given session record,
    uncommitted files and commit to come from the agent. *)
Definition demoRepo (session : option Session) (dirty : list string)
    (agent : option string) : Repo :=
  mkRepo "/repo" "a1" dirty [] false 0 session [] agent.

(** The same, with git refusing to commit. *)
Definition lockedRepo (session : option Session) (dirty : list string) : Repo :=
  mkRepo "/repo" "a1" dirty [] true 0 session [] None.

Definition sessionIn (m : CommitMode) : option Session :=
  Some (mkSession (Some m) None None).

(** Three persisted executions of session [s1]; the second has no diff. *)
Definition demoRecords : list ExecutionDiff :=
  [ mkRecord 1 "s1" 1 (Some "diff --git a/a.ts") (Some ["a.ts"]) 3 1 1
             (Some "a1") (Some "b2");
    mkRecord 2 "s1" 2 (Some "") (Some []) 0 0 0 (Some "b2") (Some "b2");
    mkRecord 3 "s1" 3 (Some "diff --git a/b.ts") None 5 0 1
             (Some "b2") (Some "c3") ].

Definition repoWithRecords : Repo :=
  mkRepo "/repo" "c3" [] [] false 3 (sessionIn checkpoint) demoRecords None.

(** A tracker that has just been constructed. *)
Definition newTracker {W} (w : W) : Tracker W := mkTracker ∅ w.

(** A tracker in the middle of execution 1 of session [s1], started at
    commit [a1] in the worktree [path]. *)
Definition trackingS1 (path : string) (w : Repo) : Tracker Repo :=
  mkTracker {[ "s1" := mkContext "s1" path None "a1" 1 (Some "fix the bug") ]} w.

(** ** Properties of runs

    [keeps m]: [m] leaves [activeExecutions] as it found it, however it
    ends.  [ends_with f m]: [m] applies [f] to it when it returns and
    leaves it alone when it throws. *)
Definition keeps {W A} (m : M W A) : Prop :=
  ∀ t, activeExecutions (tracker_of (m t)) = activeExecutions t.

Definition ends_with {W A}
    (f : gmap string ExecutionContext → gmap string ExecutionContext)
    (m : M W A) : Prop :=
  ∀ t, activeExecutions (tracker_of (m t)) =
       if returned (outcome_of (m t)) then f (activeExecutions t)
       else activeExecutions t.

(** The persistence property in the unconditional form of the
    specification: every [endExecution] on a tracked session persists
    exactly one record, with no file changed when the hash after the run
    is the hash before it, and emits [execution-completed] with the
    sequence, id and stats of that record. *)
Definition persists_one_unconditionally {W} (env : Env W) (sid : string)
    (t : Tracker W) : Prop :=
  ∀ ctx, activeExecutions t !! sid = Some ctx →
    ∃ d created,
      only KPersist (trace_of (endExecution env sid t))
        = [call_createExecutionDiff d (Returned created)] ∧
      (In (call_getCurrentCommitHash (ctx_worktreePath ctx)
             (Returned (ctx_beforeCommitHash ctx)))
          (trace_of (endExecution env sid t)) →
       stats_files_changed d = 0) ∧
      events_of (trace_of (endExecution env sid t))
        = [execution_completed sid (execution_sequence d) (rec_id created)
             (mkStats (stats_additions d) (stats_deletions d)
                      (stats_files_changed d))].

(** ** The rest of the class *)

(** [getExecutionDiffs] (lines 337-354): the method of the tracker, which
    hands back what the session manager answers. *)
Module ExecutionTracker.
Definition getExecutionDiffs {W} (env : Env W) (sessionId : string)
    : M W (list ExecutionDiff) :=
  let* diffs :=
    call (getExecutionDiffs env sessionId) (call_getExecutionDiffs sessionId) in
  ret diffs.
End ExecutionTracker.

(** ** More ways to read a trace *)

Definition failure {A} (o : Outcome A) : option Exn :=
  match o with Threw e => Some e | Returned _ => None end.

(** What a call threw, if it threw. *)
Definition thrown_by (ef : Effect) : option Exn :=
  match ef with
  | logged _ | console_log => None
  | call_getNextExecutionSequence _ r => failure r
  | call_getSession _ r => failure r
  | call_addSessionOutput _ _ r => failure r
  | call_createExecutionDiff _ r => failure r
  | call_getExecutionDiffs _ r => failure r
  | call_getCurrentCommitHash _ r => failure r
  | call_captureWorkingDirectoryDiff _ r => failure r
  | call_captureCommitDiff _ _ _ r => failure r
  | call_combineDiffs _ r => failure r
  | call_handlePostPromptCommit _ _ _ _ _ r => failure r
  | call_waitForStructuredCommit _ _ _ r => failure r
  | emitted _ r => failure r
  end.

(** What a call of a run of [endExecution] for session [sid] with context
    [context] may be: about this session, this worktree, this prompt and
    this sequence number, and never a sequence allocation, a query of the
    persisted diffs or a combination of diffs. *)
Definition uses_context (sid : string) (context : ExecutionContext) (ef : Effect)
    : Prop :=
  match ef with
  | logged _ | console_log => True
  | call_getSession s _ => s = sid
  | call_handlePostPromptCommit s p _ prompt seq _ =>
      s = sid ∧ p = ctx_worktreePath context ∧ prompt = ctx_prompt context ∧
      seq = ctx_executionSequence context
  | call_addSessionOutput s _ _ => s = sid
  | call_waitForStructuredCommit s p ms _ =>
      s = sid ∧ p = ctx_worktreePath context ∧ ms = 5000
  | call_getCurrentCommitHash p _ => p = ctx_worktreePath context
  | call_captureWorkingDirectoryDiff p _ => p = ctx_worktreePath context
  | call_captureCommitDiff p a b _ =>
      p = ctx_worktreePath context ∧ a = ctx_beforeCommitHash context ∧
      b ≠ ctx_beforeCommitHash context
  | call_createExecutionDiff d _ =>
      session_id d = sid ∧ prompt_marker_id d = ctx_promptMarkerId context ∧
      execution_sequence d = ctx_executionSequence context
  | emitted ev _ =>
      ∃ id st, ev = execution_completed sid (ctx_executionSequence context) id st
  | call_getNextExecutionSequence _ _ | call_getExecutionDiffs _ _
  | call_combineDiffs _ _ => False
  end.

(** What the fields of a session output message are, subtype by subtype. *)
Definition well_formed_message (data : SystemMessage) : Prop :=
  match msg_subtype data with
  | autocommit_error =>
      truthy_opt_string (msg_error data) = true ∧ msg_commit_hash data = None
  | autocommit_success =>
      msg_mode data = checkpoint ∧ msg_error data = None
  | autocommit_mode =>
      msg_mode data = structured ∧ msg_commit_hash data = None ∧
      msg_error data = None
  | autocommit_timeout =>
      msg_mode data = structured ∧ truthy_opt_string (msg_error data) = true ∧
      msg_commit_hash data = None
  | autocommit_claude_success =>
      msg_mode data = structured ∧
      truthy_opt_string (msg_commit_hash data) = true ∧ msg_error data = None
  end.

Definition well_formed_output (sid : string) (ef : Effect) : Prop :=
  match ef with
  | call_addSessionOutput s data _ => s = sid ∧ well_formed_message data
  | _ => True
  end.

(** The place of a call in a run of [endExecution]; the session outputs
    have none, they come after the commit and after the wait. *)
Definition phase_of (k : Kind) : option nat :=
  match k with
  | KSession => Some 0%nat
  | KCommit => Some 1%nat
  | KWait => Some 2%nat
  | KHash => Some 3%nat
  | KCapture => Some 4%nat
  | KPersist => Some 5%nat
  | KEmit => Some 6%nat
  | KLog | KOutput | KSequence | KQuery | KCombine => None
  end.

Definition phases_of (tr : list Effect) : list nat :=
  omap (λ ef, phase_of (kind_of ef)) tr.

(** Every context is filed under its own session id. *)
Definition registry_keyed (registry : gmap string ExecutionContext) : Prop :=
  ∀ sid ctx, registry !! sid = Some ctx → ctx_sessionId ctx = sid.

(** A method is fail-fast when a run that returns has seen no call throw,
    and a run that throws [e] has seen exactly one call throw, its last
    one, and that call threw [e]. *)
Definition fail_fast_run {A} (o : Outcome A) (tr : list Effect) : Prop :=
  match o with
  | Returned _ => Forall (λ ef, thrown_by ef = None) (calls tr)
  | Threw e =>
      ∃ before last,
        calls tr = before ++ [last] ∧ thrown_by last = Some e ∧
        Forall (λ ef, thrown_by ef = None) before
  end.

Definition fail_fast {W A} (m : M W A) : Prop :=
  ∀ t, fail_fast_run (outcome_of (m t)) (trace_of (m t)).

(** All the calls a method makes, in every run, satisfy [P]. *)
Definition all_calls {W A} (P : Effect → Prop) (m : M W A) : Prop :=
  ∀ t, Forall P (calls (trace_of (m t))).

(** * Results *)

Section Facts.
Context {W : Type} (env : Env W).
Implicit Types (t : Tracker W) (tr : list Effect) (sid path : string).

Lemma only_app k tr1 tr2 : only k (tr1 ++ tr2) = only k tr1 ++ only k tr2.
Proof. apply List.filter_app. Qed.

Lemma events_of_app tr1 tr2 : events_of (tr1 ++ tr2) = events_of tr1 ++ events_of tr2.
Proof. apply flat_map_app. Qed.

Lemma persisted_of_app tr1 tr2 :
  persisted_of (tr1 ++ tr2) = persisted_of tr1 ++ persisted_of tr2.
Proof. apply flat_map_app. Qed.

Lemma subtypes_of_app tr1 tr2 :
  subtypes_of (tr1 ++ tr2) = subtypes_of tr1 ++ subtypes_of tr2.
Proof. apply flat_map_app. Qed.

(** Equality of two traces up to the bracketing of their parts. *)
Ltac same_trace :=
  try done;
  rewrite ?app_nil_r; rewrite <- ?app_assoc; simpl;
  rewrite ?app_nil_r; rewrite <- ?app_assoc; done.



(** *** What a method does to the registry *)

Lemma keeps_ret {A} (a : A) : keeps (@ret W A a).
Proof. done. Qed.


Lemma keeps_log lvl : keeps (log env lvl).
Proof. done. Qed.

Lemma keeps_consoleLog : keeps (@consoleLog W).
Proof. done. Qed.

Lemma keeps_call {A} (f : W → Outcome A * W) record : keeps (call f record).
Proof. intros t. unfold call, tracker_of. by destruct (f (world t)). Qed.

Lemma keeps_bind {A B} (m : M W A) (k : A → M W B) :
  keeps m → (∀ a, keeps (k a)) → keeps (bind m k).
Proof.
  intros Hm Hk t. specialize (Hm t). unfold bind, tracker_of in *.
  destruct (m t) as [[[a|e] t1] tr1]; simpl in *; [|done].
  specialize (Hk a t1). unfold tracker_of in Hk.
  destruct (k a t1) as [[o t2] tr2]; simpl in *. congruence.
Qed.

Lemma ends_with_bind {A B} f (m : M W A) (k : A → M W B) :
  keeps m → (∀ a, ends_with f (k a)) → ends_with f (bind m k).
Proof.
  intros Hm Hk t. specialize (Hm t). unfold bind, tracker_of, outcome_of in *.
  destruct (m t) as [[[a|e] t1] tr1]; simpl in *; [|done].
  specialize (Hk a t1). unfold tracker_of, outcome_of in Hk.
  destruct (k a t1) as [[o t2] tr2]; simpl in *. by rewrite Hk, Hm.
Qed.

Lemma ends_with_delete sid : ends_with (delete sid) (@registry_delete W sid).
Proof. done. Qed.

Lemma keeps_emit ev : keeps (emit env ev).
Proof. apply keeps_call. Qed.

Lemma keeps_sessionOutput sid data : keeps (sessionOutput env sid data).
Proof. apply keeps_call. Qed.

Lemma keeps_resolveCommitMode session : keeps (resolveCommitMode env session).
Proof.
  unfold resolveCommitMode.
  repeat first
    [ apply keeps_ret | apply keeps_log
    | apply keeps_bind; [|intros ?] | case_match ].
Qed.

Lemma keeps_reportCommit sid mode cr : keeps (reportCommit env sid mode cr).
Proof.
  unfold reportCommit.
  repeat first
    [ apply keeps_ret | apply keeps_consoleLog | apply keeps_sessionOutput
    | apply keeps_bind; [|intros ?] | case_match ].
Qed.

Lemma keeps_awaitStructuredCommit sid path mode :
  keeps (awaitStructuredCommit env sid path mode).
Proof.
  unfold awaitStructuredCommit.
  repeat first
    [ apply keeps_ret | apply keeps_log | apply keeps_sessionOutput
    | apply keeps_call | apply keeps_bind; [|intros ?] | case_match ].
Qed.

Lemma keeps_captureExecutionDiff ctx : keeps (captureExecutionDiff env ctx).
Proof.
  unfold captureExecutionDiff.
  repeat first
    [ apply keeps_ret | apply keeps_log | apply keeps_call
    | apply keeps_bind; [|intros ?] | case_match ].
Qed.

Lemma persistAndComplete_registry sid ctx d :
  ends_with (delete sid) (persistAndComplete env sid ctx d).
Proof.
  unfold persistAndComplete.
  repeat first
    [ apply ends_with_delete | apply keeps_log | apply keeps_emit
    | apply keeps_call | apply ends_with_bind; [|intros ?] ].
Qed.

(** A tracked [endExecution] releases the context when it returns and has
    not touched the registry when it throws. *)
Lemma endTracked_registry sid ctx : ends_with (delete sid) (endTracked env sid ctx).
Proof.
  unfold endTracked.
  repeat first
    [ apply persistAndComplete_registry | apply keeps_log
    | apply keeps_resolveCommitMode | apply keeps_reportCommit
    | apply keeps_awaitStructuredCommit | apply keeps_captureExecutionDiff
    | apply keeps_call | apply ends_with_bind; [|intros ?] ].
Qed.

(** Whatever happens, [endExecution] leaves no context for the session. *)
Lemma endExecution_releases sid t :
  activeExecutions (tracker_of (endExecution env sid t)) !! sid = None.
Proof.
  unfold endExecution, try_catch, bind at 1, registry_get.
  destruct (activeExecutions t !! sid) as [ctx|] eqn:Hctx.
  - pose proof (endTracked_registry sid ctx t) as Hreg.
    unfold tracker_of, outcome_of in Hreg.
    destruct (endTracked env sid ctx t) as [[[[]|e] t1] tr1]; simpl in *.
    + unfold tracker_of. simpl. rewrite Hreg. apply lookup_delete_eq.
    + unfold bind, log, registry_delete, throw, tracker_of. simpl.
      apply lookup_delete_eq.
  - unfold bind, log, ret, tracker_of. simpl. done.
Qed.

Lemma cancelExecution_releases sid t :
  activeExecutions (tracker_of (cancelExecution env sid t)) !! sid = None.
Proof.
  unfold cancelExecution, bind at 1, registry_get.
  destruct (activeExecutions t !! sid) as [ctx|] eqn:Hctx; simpl; [|done].
  unfold bind, log, registry_delete, emit, call, tracker_of. simpl.
  destruct (listeners env _ (world t)) as [r w]; simpl.
  apply lookup_delete_eq.
Qed.

(** *** Taking a run apart *)

Lemma bind_inv {A B} (m : M W A) (k : A → M W B) t o t' tr :
  bind m k t = (o, t', tr) →
  (∃ e, m t = (Threw e, t', tr) ∧ o = Threw e) ∨
  (∃ a t1 tr1 tr2,
     m t = (Returned a, t1, tr1) ∧ k a t1 = (o, t', tr2) ∧ tr = tr1 ++ tr2).
Proof.
  unfold bind. destruct (m t) as [[[a|e] t1] tr1].
  - destruct (k a t1) as [[o2 t2] tr2] eqn:Ek. intros [= <- <- <-].
    right. by exists a, t1, tr1, tr2.
  - intros [= <- <- <-]. left. by exists e.
Qed.

Lemma try_catch_inv {A} (body : M W A) handler t o t' tr :
  try_catch body handler t = (o, t', tr) →
  (∃ a, body t = (Returned a, t', tr) ∧ o = Returned a) ∨
  (∃ e t1 tr1 tr2,
     body t = (Threw e, t1, tr1) ∧ handler e t1 = (o, t', tr2) ∧ tr = tr1 ++ tr2).
Proof.
  unfold try_catch. destruct (body t) as [[[a|e] t1] tr1].
  - intros [= <- <- <-]. left. by exists a.
  - destruct (handler e t1) as [[o2 t2] tr2] eqn:Eh. intros [= <- <- <-].
    right. by exists e, t1, tr1, tr2.
Qed.

Lemma call_inv {A} (f : W → Outcome A * W) record t o t' tr :
  call f record t = (o, t', tr) →
  ∃ w, f (world t) = (o, w) ∧ t' = mkTracker (activeExecutions t) w ∧ tr = [record o].
Proof.
  unfold call. destruct (f (world t)) as [r w]. intros [= <- <- <-]. by exists w.
Qed.

(** Two answers to one call at one world are the same answer. *)
Ltac same_call :=
  repeat match goal with
  | H1 : ?call = (_, _), H2 : ?call = (_, _) |- _ =>
      tryif constr_eq H1 H2 then fail else (rewrite H1 in H2; simplify_eq)
  end; simplify_eq.

Ltac destruct_unit :=
  repeat match goal with u : unit |- _ => destruct u end.

(** Splits the hypothesis that describes a run into the runs of its parts,
    one goal per way the run can go. *)
Ltac split_run :=
  repeat match goal with
  | H : bind _ _ _ = (_, _, _) |- _ =>
      apply bind_inv in H as [(? & H & ?) | (? & ? & ? & ? & ? & H & ?)]
  | H : try_catch _ _ _ = (_, _, _) |- _ =>
      apply try_catch_inv in H as [(? & H & ?) | (? & ? & ? & ? & H & ? & ?)]
  | H : call _ _ _ = (_, _, _) |- _ =>
      apply call_inv in H as (? & ? & ? & ?)
  | H : emit _ _ _ = (_, _, _) |- _ => unfold emit in H
  | H : sessionOutput _ _ _ _ = (_, _, _) |- _ => unfold sessionOutput in H
  | H : log _ _ _ = (_, _, _) |- _ => unfold log in H; simplify_eq
  | H : consoleLog _ = (_, _, _) |- _ => unfold consoleLog in H; simplify_eq
  | H : ret _ _ = (_, _, _) |- _ => unfold ret in H; simplify_eq
  | H : throw _ _ = (_, _, _) |- _ => unfold throw in H; simplify_eq
  | H : registry_get _ _ = (_, _, _) |- _ => unfold registry_get in H; simplify_eq
  | H : registry_set _ _ _ = (_, _, _) |- _ => unfold registry_set in H; simplify_eq
  | H : registry_delete _ _ = (_, _, _) |- _ => unfold registry_delete in H; simplify_eq
  end; simplify_eq; simpl in *.

(** *** The calls of a trace *)

Lemma calls_app tr1 tr2 : calls (tr1 ++ tr2) = calls tr1 ++ calls tr2.
Proof. apply List.filter_app. Qed.

Lemma calls_log_line lvl : calls (log_line env lvl) = [].
Proof. unfold log_line. by destruct (hasLogger env). Qed.

Lemma in_calls ef tr : In ef tr → kind_of ef ≠ KLog → In ef (calls tr).
Proof.
  intros Hin Hk. apply filter_In. split; [done|].
  by rewrite bool_decide_eq_false_2.
Qed.


Lemma only_calls k tr : k ≠ KLog → only k tr = only k (calls tr).
Proof.
  intros Hk. unfold only, calls. induction tr as [|ef tr IH]; [done|]. simpl.
  destruct (bool_decide (kind_of ef = k)) eqn:Ek.
  - apply bool_decide_eq_true_1 in Ek.
    rewrite (bool_decide_eq_false_2 (kind_of ef = KLog)) by congruence.
    simpl. rewrite bool_decide_eq_true_2 by done. by f_equal.
  - destruct (bool_decide (kind_of ef = KLog)); simpl; [done|]. by rewrite Ek.
Qed.

Lemma events_of_calls tr : events_of tr = events_of (calls tr).
Proof.
  induction tr as [|ef tr IH]; [done|].
  change (ef :: tr) with ([ef] ++ tr).
  rewrite calls_app, !events_of_app, IH. f_equal. by destruct ef.
Qed.

Lemma persisted_of_calls tr : persisted_of tr = persisted_of (calls tr).
Proof.
  induction tr as [|ef tr IH]; [done|].
  change (ef :: tr) with ([ef] ++ tr).
  rewrite calls_app, !persisted_of_app, IH. f_equal. by destruct ef.
Qed.

Lemma subtypes_of_calls tr : subtypes_of tr = subtypes_of (calls tr).
Proof.
  induction tr as [|ef tr IH]; [done|].
  change (ef :: tr) with ([ef] ++ tr).
  rewrite calls_app, !subtypes_of_app, IH. f_equal. by destruct ef.
Qed.

(** *** The phases of [endExecution], taken apart *)

(** Forcing the mode after the merge makes the mode written into the
    defaults before the merge (line 93) invisible. *)
Lemma setMode_merge m (parsed settings : JsObject) :
  setMode m (parsed ∪ setMode m settings) = setMode m (parsed ∪ settings).
Proof.
  apply map_eq. intros k. unfold setMode.
  destruct (decide (k = "mode")) as [->|Hk].
  - by rewrite !lookup_insert_eq.
  - rewrite !lookup_insert_ne by done.
    by rewrite !lookup_union, lookup_insert_ne.
Qed.

Lemma resolveCommitMode_inv session t o t' tr :
  resolveCommitMode env session t = (o, t', tr) →
  o = Returned (spec_commitMode session, spec_settings (JSON_parse env) session) ∧
  t' = t ∧ calls tr = [].
Proof.
  unfold resolveCommitMode, spec_commitMode, spec_settings.
  destruct session as [[[m|] [payload|] [[|]|]]|]; simpl; intros Hrun;
    try destruct (truthy_string payload);
    try destruct (JSON_parse env payload);
    split_run; rewrite ?calls_app, ?calls_log_line, ?setMode_merge; done.
Qed.

Lemma reportCommit_inv sid mode cr t o t' tr :
  reportCommit env sid mode cr t = (o, t', tr) →
  (success cr = false ∧ truthy_opt_string (error cr) = true ∧
   calls tr = [call_addSessionOutput sid (commitErrorMessage mode cr) o]) ∨
  (success cr = true ∧ mode = checkpoint ∧
   calls tr = [call_addSessionOutput sid (commitSuccessMessage cr) o]) ∨
  (success cr = true ∧ mode = structured ∧
   calls tr = [call_addSessionOutput sid structuredModeMessage o]) ∨
  (calls tr = [] ∧ o = Returned tt ∧
   (success cr = true ∧ mode = disabled ∨
    success cr = false ∧ truthy_opt_string (error cr) = false)).
Proof.
  unfold reportCommit.
  destruct (success cr), (truthy_opt_string (error cr)), mode; simpl;
    intros H; split_run; naive_solver.
Qed.

Lemma awaitStructuredCommit_inv sid path mode t o t' tr :
  awaitStructuredCommit env sid path mode t = (o, t', tr) →
  (mode ≠ structured ∧ tr = [] ∧ o = Returned tt) ∨
  (mode = structured ∧
   ((∃ e, o = Threw e ∧
          calls tr = [call_waitForStructuredCommit sid path 5000 (Threw e)]) ∨
    (∃ sr, success sr = false ∧
           calls tr = [call_waitForStructuredCommit sid path 5000 (Returned sr);
                       call_addSessionOutput sid (timeoutMessage sr) o]) ∨
    (∃ sr, success sr = true ∧ truthy_opt_string (commitHash sr) = true ∧
           calls tr = [call_waitForStructuredCommit sid path 5000 (Returned sr);
                       call_addSessionOutput sid (claudeCommitMessage sr) o]) ∨
    (∃ sr, success sr = true ∧ truthy_opt_string (commitHash sr) = false ∧
           o = Returned tt ∧
           calls tr = [call_waitForStructuredCommit sid path 5000 (Returned sr)]))).
Proof.
  unfold awaitStructuredCommit. destruct mode; simpl; intros H;
    try (left; split_run; done).
  right. split; [done|]. split_run; rewrite ?calls_app, ?calls_log_line; simpl.
  - left. eauto.
  - repeat case_match; split_run; rewrite ?calls_app, ?calls_log_line; simpl;
      rewrite ?negb_true_iff, ?negb_false_iff in *.
    + right. left. eauto.
    + right. right. left. eauto.
    + right. right. right. eauto 6.
Qed.

Lemma captureExecutionDiff_inv ctx t o t' tr :
  captureExecutionDiff env ctx t = (o, t', tr) →
  (∃ e, o = Threw e ∧
        calls tr = [call_getCurrentCommitHash (ctx_worktreePath ctx) (Threw e)]) ∨
  (∃ h, calls tr = [call_getCurrentCommitHash (ctx_worktreePath ctx) (Returned h);
                    capture_call ctx h o]).
Proof.
  unfold captureExecutionDiff, capture_call. intros H. split_run.
  - left. eauto.
  - right.
    match goal with
    | E : getCurrentCommitHash _ _ _ = (Returned ?h, _) |- _ => exists h
    end.
    case_match; split_run; rewrite ?calls_app, ?calls_log_line; done.
Qed.

Lemma persistAndComplete_inv sid ctx d t o t' tr :
  persistAndComplete env sid ctx d t = (o, t', tr) →
  (∃ e, o = Threw e ∧
        calls tr = [call_createExecutionDiff (diffDataOf sid ctx d) (Threw e)]) ∨
  (∃ created,
     calls tr = [call_createExecutionDiff (diffDataOf sid ctx d) (Returned created);
                 emitted (execution_completed sid (ctx_executionSequence ctx)
                            (rec_id created) (stats d)) o]).
Proof.
  unfold persistAndComplete. intros H. split_run;
    rewrite ?calls_app, ?calls_log_line; simpl.
  - left. eauto.
  - right. eauto.
  - right. eexists. by match goal with u : unit |- _ => destruct u end.
Qed.

(** What the two reporting phases can do: nothing but session outputs,
    and for the wait phase the wait itself. *)
Lemma reportCommit_footprint sid mode cr t o t' tr :
  reportCommit env sid mode cr t = (o, t', tr) →
  Forall (λ ef, kind_of ef = KOutput) (calls tr).
Proof.
  intros H. apply reportCommit_inv in H
    as [(_ & _ & ->) | [(_ & _ & ->) | [(_ & _ & ->) | (-> & _)]]];
    repeat constructor.
Qed.

Lemma awaitStructuredCommit_footprint sid path mode t o t' tr :
  awaitStructuredCommit env sid path mode t = (o, t', tr) →
  Forall (λ ef, kind_of ef = KWait ∨ kind_of ef = KOutput) (calls tr).
Proof.
  intros H. apply awaitStructuredCommit_inv in H
    as [(_ & -> & _)
       | (_ & [(e & _ & ->) | [(sr & _ & ->) | [(sr & _ & _ & ->) | (sr & _ & _ & _ & ->)]]])];
    repeat first [apply List.Forall_nil | apply List.Forall_cons; [simpl; auto|]].
Qed.

Lemma persistAndComplete_footprint sid ctx d t o t' tr :
  persistAndComplete env sid ctx d t = (o, t', tr) →
  Forall (λ ef, kind_of ef = KPersist ∨ kind_of ef = KEmit) (calls tr).
Proof.
  intros H. apply persistAndComplete_inv in H as [(e & _ & ->) | (c & ->)];
    repeat first [apply List.Forall_nil | apply List.Forall_cons; [simpl; auto|]].
Qed.

Lemma captureExecutionDiff_footprint ctx t o t' tr :
  captureExecutionDiff env ctx t = (o, t', tr) →
  Forall (λ ef, kind_of ef = KHash ∨ kind_of ef = KCapture) (calls tr).
Proof.
  intros H. apply captureExecutionDiff_inv in H as [(e & _ & ->) | (h & ->)];
    unfold capture_call; try case_bool_decide;
    repeat first [apply List.Forall_nil | apply List.Forall_cons; [simpl; auto|]].
Qed.

Lemma footprint_only (P : Effect → Prop) k l :
  Forall P l → (∀ ef, P ef → kind_of ef ≠ k) → only k l = [].
Proof.
  intros Hall Hk. induction Hall as [|ef l Hef _ IH]; [done|].
  unfold only in *. simpl. by rewrite bool_decide_eq_false_2, IH by auto.
Qed.

Lemma footprint_in (P : Effect → Prop) ef l : Forall P l → In ef l → P ef.
Proof. intros Hall Hin. eapply List.Forall_forall in Hall; eauto. Qed.

Lemma footprint_subtypes (P : Effect → Prop) l :
  Forall P l → (∀ ef, P ef → kind_of ef ≠ KOutput) → subtypes_of l = [].
Proof.
  intros Hall Hk. induction Hall as [|ef l Hef _ IH]; [done|].
  simpl. rewrite IH. specialize (Hk ef Hef). by destruct ef.
Qed.

Lemma footprint_persisted (P : Effect → Prop) l :
  Forall P l → (∀ ef, P ef → kind_of ef ≠ KPersist) → persisted_of l = [].
Proof.
  intros Hall Hk. induction Hall as [|ef l Hef _ IH]; [done|].
  simpl. rewrite IH. specialize (Hk ef Hef). by destruct ef.
Qed.

Lemma footprint_events (P : Effect → Prop) l :
  Forall P l → (∀ ef, P ef → kind_of ef ≠ KEmit) → events_of l = [].
Proof.
  intros Hall Hk. induction Hall as [|ef l Hef _ IH]; [done|].
  simpl. rewrite IH. specialize (Hk ef Hef). by destruct ef.
Qed.

(** The outputs of the report phase, row by row. *)
Lemma reportCommit_table sid mode cr t o t' tr :
  reportCommit env sid mode cr t = (o, t', tr) →
  (In autocommit_error (subtypes_of (calls tr)) ↔
     success cr = false ∧ truthy_opt_string (error cr) = true) ∧
  (In autocommit_success (subtypes_of (calls tr)) ↔
     mode = checkpoint ∧ success cr = true) ∧
  (In autocommit_mode (subtypes_of (calls tr)) ↔
     mode = structured ∧ success cr = true) ∧
  ¬ In autocommit_timeout (subtypes_of (calls tr)) ∧
  ¬ In autocommit_claude_success (subtypes_of (calls tr)) ∧
  (∀ s data r, In (call_addSessionOutput s data r) (calls tr) →
     s = sid ∧ (data = commitErrorMessage mode cr ∨ data = commitSuccessMessage cr
                ∨ data = structuredModeMessage)) ∧
  (mode = disabled → success cr = true → calls tr = []).
Proof.
  intros H. apply reportCommit_inv in H
    as [(? & ? & ->) | [(? & ? & ->) | [(? & ? & ->) | (-> & _ & [[??]|[??]])]]];
    simpl; repeat split; intros; naive_solver congruence.
Qed.

(** The outputs of the wait phase, row by row. *)
Lemma awaitStructuredCommit_table sid path mode t o t' tr :
  awaitStructuredCommit env sid path mode t = (o, t', tr) →
  (In autocommit_timeout (subtypes_of (calls tr)) ↔
     ∃ sr, In (call_waitForStructuredCommit sid path 5000 (Returned sr)) (calls tr) ∧
           success sr = false) ∧
  (In autocommit_claude_success (subtypes_of (calls tr)) ↔
     ∃ sr, In (call_waitForStructuredCommit sid path 5000 (Returned sr)) (calls tr) ∧
           success sr = true ∧ truthy_opt_string (commitHash sr) = true) ∧
  ¬ In autocommit_error (subtypes_of (calls tr)) ∧
  ¬ In autocommit_success (subtypes_of (calls tr)) ∧
  ¬ In autocommit_mode (subtypes_of (calls tr)) ∧
  (∀ s data r, In (call_addSessionOutput s data r) (calls tr) →
     s = sid ∧
     ∃ sr, In (call_waitForStructuredCommit sid path 5000 (Returned sr)) (calls tr) ∧
           (data = timeoutMessage sr ∨ data = claudeCommitMessage sr)) ∧
  (mode ≠ structured → calls tr = []).
Proof.
  intros H. apply awaitStructuredCommit_inv in H
    as [(_ & -> & _)
       | (? & [(e & _ & ->) | [(sr & ? & ->) | [(sr & ? & ? & ->) | (sr & ? & ? & _ & ->)]]])];
    simpl; repeat split; intros; naive_solver congruence.
Qed.

(** *** The run of a tracked [endExecution], phase by phase

    Session lookup, commit, report, wait, capture, persist: the run stops
    at the first phase that throws, and the calls of the trace are those of
    the phases it went through. *)
Lemma endTracked_inv sid ctx t o t' tr :
  endTracked env sid ctx t = (o, t', tr) →
  (∃ e, o = Threw e ∧ calls tr = [call_getSession sid (Threw e)]) ∨
  ∃ session,
    let mode := spec_commitMode session in
    let commit :=
      call_handlePostPromptCommit sid (ctx_worktreePath ctx)
        (spec_settings (JSON_parse env) session) (ctx_prompt ctx)
        (ctx_executionSequence ctx) in
    let lookup := call_getSession sid (Returned session) in
    (∃ e, o = Threw e ∧ calls tr = [lookup; commit (Threw e)]) ∨
    ∃ cr tB oB tW trB,
      reportCommit env sid mode cr tB = (oB, tW, trB) ∧
      ((∃ e, oB = Threw e ∧ o = Threw e ∧
             calls tr = [lookup; commit (Returned cr)] ++ calls trB) ∨
       ∃ oW tD trW,
         oB = Returned tt ∧
         awaitStructuredCommit env sid (ctx_worktreePath ctx) mode tW = (oW, tD, trW) ∧
         ((∃ e, oW = Threw e ∧ o = Threw e ∧
                calls tr = [lookup; commit (Returned cr)] ++ calls trB ++ calls trW) ∨
          ∃ oD tE trD,
            oW = Returned tt ∧
            captureExecutionDiff env ctx tD = (oD, tE, trD) ∧
            ((∃ e, oD = Threw e ∧ o = Threw e ∧
                   calls tr = [lookup; commit (Returned cr)] ++ calls trB
                                ++ calls trW ++ calls trD) ∨
             ∃ executionDiff trE,
               oD = Returned executionDiff ∧
               persistAndComplete env sid ctx executionDiff tE = (o, t', trE) ∧
               calls tr = [lookup; commit (Returned cr)] ++ calls trB
                            ++ calls trW ++ calls trD ++ calls trE))).
Proof.
  unfold endTracked. intros H. split_run;
    repeat match goal with
    | H : resolveCommitMode _ _ _ = _ |- _ =>
        apply resolveCommitMode_inv in H as (? & ? & ?); simplify_eq
    end; simpl in *;
    repeat (rewrite ?calls_app, ?calls_log_line; simpl);
    repeat match goal with H : calls _ = [] |- _ => rewrite H; clear H end; simpl.
  - left. eauto.
  - right. eexists. left. eauto.
  - right. eexists. right. do 5 eexists. split; [eassumption|]. left. eauto.
  - right. eexists. right. do 5 eexists. split; [eassumption|]. right.
    do 3 eexists. split; [by destruct_unit|]. split; [eassumption|]. left. eauto.
  - right. eexists. right. do 5 eexists. split; [eassumption|]. right.
    do 3 eexists. split; [by destruct_unit|]. split; [eassumption|]. right.
    do 3 eexists. split; [by destruct_unit|]. split; [eassumption|]. left. eauto.
  - right. eexists. right. do 5 eexists. split; [eassumption|]. right.
    do 3 eexists. split; [by destruct_unit|]. split; [eassumption|]. right.
    do 3 eexists. split; [by destruct_unit|]. split; [eassumption|]. right.
    eauto.
Qed.

(** [endExecution] with an active context is the tracked run, followed on a
    throw by the clean-up of the catch clause, which calls nobody. *)
Lemma endExecution_inv sid ctx t o t' tr :
  activeExecutions t !! sid = Some ctx →
  endExecution env sid t = (o, t', tr) →
  ∃ t1 tr1, endTracked env sid ctx t = (o, t1, tr1) ∧ calls tr = calls tr1.
Proof.
  intros Hctx H. unfold endExecution in H. split_run;
    rewrite Hctx in *;
    repeat (rewrite ?calls_app, ?calls_log_line; simpl); rewrite ?app_nil_r;
    eauto.
Qed.

(** The cases of a run of [endExecution] on a tracked session, with the
    footprint of each phase the run went through. *)
Ltac phases Hctx Hrun :=
  let Hcalls := fresh "Hcalls" in
  apply (endExecution_inv _ _ _ _ _ _ Hctx) in Hrun as (? & ? & Hrun & Hcalls);
  rewrite Hcalls in *; clear Hcalls;
  apply endTracked_inv in Hrun
    as [(? & ? & Hcalls)
       | (session' & [(? & ? & Hcalls)
         | (cr' & ? & ? & ? & trB & HB &
            [(? & ? & ? & Hcalls)
            | (? & ? & trW & ? & HW &
               [(? & ? & ? & Hcalls)
               | (? & ? & trD & ? & HD &
                  [(? & ? & ? & Hcalls)
                  | (executionDiff & trE & ? & HE & Hcalls)])])])])];
  rewrite Hcalls in *; clear Hcalls; simplify_eq;
  try (pose proof (reportCommit_footprint _ _ _ _ _ _ _ HB) as FB);
  try (pose proof (awaitStructuredCommit_footprint _ _ _ _ _ _ _ HW) as FW);
  try (pose proof (captureExecutionDiff_footprint _ _ _ _ _ HD) as FD);
  try (pose proof (persistAndComplete_footprint _ _ _ _ _ _ _ HE) as FE).

(** Finds where in the phases a call that is known to be in the trace can
    be; the phases that cannot have made it are discarded. *)
Ltac locate H :=
  repeat (apply in_app_or in H as [H|H]);
  try (by (eapply footprint_in in H; [|eassumption]; simpl in H;
           intuition simplify_eq));
  try (simpl in H;
       repeat match type of H with
              | _ ∨ _ => destruct H as [H|H]
              | False => destruct H
              end;
       simplify_eq).

(** No call of kind [k] in the phases whose footprint excludes [k]. *)
Ltac no_such :=
  repeat progress
    (rewrite ?only_app;
     repeat match goal with
     | F : Forall _ ?l |- context [only ?k ?l] =>
         rewrite (footprint_only _ k l F) by (simpl; intuition congruence)
     end;
     simpl);
  try done.

(** *** [startExecution], case by case *)

Lemma startExecution_inv sid path marker prompt t o t' tr :
  startExecution env sid path marker prompt t = (o, t', tr) →
  (∃ e w1,
     getNextExecutionSequence env sid (world t) = (Threw e, w1) ∧
     o = Threw e ∧ t' = mkTracker (activeExecutions t) w1 ∧
     tr = log_line env verbose ++ [call_getNextExecutionSequence sid (Threw e)]
            ++ log_line env error_level) ∨
  (∃ seq w1 e w2,
     getNextExecutionSequence env sid (world t) = (Returned seq, w1) ∧
     getCurrentCommitHash env path w1 = (Threw e, w2) ∧
     o = Threw e ∧ t' = mkTracker (activeExecutions t) w2 ∧
     tr = log_line env verbose ++ [call_getNextExecutionSequence sid (Returned seq);
                                   call_getCurrentCommitHash path (Threw e)]
            ++ log_line env error_level) ∨
  (∃ seq w1 h w2 w3,
     getNextExecutionSequence env sid (world t) = (Returned seq, w1) ∧
     getCurrentCommitHash env path w1 = (Returned h, w2) ∧
     listeners env (execution_started sid seq) w2 = (o, w3) ∧
     t' = mkTracker (<[sid := mkContext sid path marker h seq prompt]>
                       (activeExecutions t)) w3 ∧
     tr = log_line env verbose ++ [call_getNextExecutionSequence sid (Returned seq);
                                   call_getCurrentCommitHash path (Returned h)]
            ++ log_line env verbose ++ [emitted (execution_started sid seq) o]
            ++ (if returned o then [] else log_line env error_level)).
Proof.
  intros H. unfold startExecution in H. split_run.
  - right. right. eexists _, _, _, _, _. repeat split; try eassumption; same_trace.
  - left. eexists _, _. repeat split; try eassumption; same_trace.
  - right. left. eexists _, _, _, _. repeat split; try eassumption; same_trace.
  - right. right. eexists _, _, _, _, _. repeat split; try eassumption; same_trace.
Qed.

Lemma events_of_log_line lvl : events_of (log_line env lvl) = [].
Proof. unfold log_line. by destruct (hasLogger env). Qed.

Lemma persisted_of_log_line lvl : persisted_of (log_line env lvl) = [].
Proof. unfold log_line. by destruct (hasLogger env). Qed.




(** C2.  [isTracking(sessionId)] is false on a tracker that was just
    constructed (before any [startExecution]), true after a
    [startExecution] that returned, and false after [endExecution] and
    after [cancelExecution], however they end: no outcome is assumed for
    them, so a throwing [endExecution] is covered. *)
Theorem isTracking_lifecycle sid :
  (∀ w : W, outcome_of (isTracking sid (newTracker w)) = Returned false) ∧
  (∀ t path marker prompt,
     outcome_of (startExecution env sid path marker prompt t) = Returned tt →
     outcome_of (isTracking sid
                   (tracker_of (startExecution env sid path marker prompt t)))
       = Returned true) ∧
  (∀ t, outcome_of (isTracking sid (tracker_of (endExecution env sid t)))
        = Returned false) ∧
  (∀ t, outcome_of (isTracking sid (tracker_of (cancelExecution env sid t)))
        = Returned false).
Proof.
  unfold isTracking, registry_has, outcome_of. simpl.
  split; [|split; [|split]].
  - intros w. by rewrite lookup_empty.
  - intros t path marker prompt.
    destruct (startExecution env sid path marker prompt t) as [[o t'] tr] eqn:Hrun.
    apply startExecution_inv in Hrun
      as [(e & w1 & _ & -> & _) | [(seq & w1 & e & w2 & _ & _ & -> & _)
                                 | (seq & w1 & h & w2 & w3 & _ & _ & _ & -> & _)]];
      simpl; try done.
    intros _. unfold tracker_of. simpl. rewrite lookup_insert_eq.
    by rewrite bool_decide_eq_true_2.
  - intros t. by rewrite endExecution_releases.
  - intros t. by rewrite cancelExecution_releases.
Qed.

(** C5.  [startExecution(sessionId, worktreePath, ...)]: when the sequence
    number is allocated and the commit hash is read, the context stored
    for the session carries exactly the hash that [getCurrentCommitHash]
    returned for [worktreePath] during this call, and the one event
    emitted is [execution-started{sessionId, executionSequence}].  When
    the sequence allocation throws, or the hash retrieval throws, the same
    error reaches the caller, the registry is as it was and no event is
    emitted. *)
Theorem startExecution_baseline sid path marker prompt t :
  (∀ seq w1 h w2,
     getNextExecutionSequence env sid (world t) = (Returned seq, w1) →
     getCurrentCommitHash env path w1 = (Returned h, w2) →
     activeExecutions (tracker_of (startExecution env sid path marker prompt t))
       = <[sid := mkContext sid path marker h seq prompt]> (activeExecutions t) ∧
     (activeExecutions (tracker_of (startExecution env sid path marker prompt t))
        !! sid) ≫= (λ c, Some (ctx_beforeCommitHash c)) = Some h ∧
     events_of (trace_of (startExecution env sid path marker prompt t))
       = [execution_started sid seq]) ∧
  (∀ e w1,
     getNextExecutionSequence env sid (world t) = (Threw e, w1) →
     outcome_of (startExecution env sid path marker prompt t) = Threw e ∧
     activeExecutions (tracker_of (startExecution env sid path marker prompt t))
       = activeExecutions t ∧
     events_of (trace_of (startExecution env sid path marker prompt t)) = []) ∧
  (∀ seq w1 e w2,
     getNextExecutionSequence env sid (world t) = (Returned seq, w1) →
     getCurrentCommitHash env path w1 = (Threw e, w2) →
     outcome_of (startExecution env sid path marker prompt t) = Threw e ∧
     activeExecutions (tracker_of (startExecution env sid path marker prompt t))
       = activeExecutions t ∧
     events_of (trace_of (startExecution env sid path marker prompt t)) = []).
Proof.
  destruct (startExecution env sid path marker prompt t) as [[o t'] tr] eqn:Hrun.
  unfold outcome_of, tracker_of, trace_of. simpl.
  apply startExecution_inv in Hrun
    as [(e & w1 & E1 & -> & -> & ->)
       | [(seq & w1 & e & w2 & E1 & E2 & -> & -> & ->)
         | (seq & w1 & h & w2 & w3 & E1 & E2 & E3 & -> & ->)]];
    (split; [|split]); intros; same_call; simpl;
    repeat (progress (rewrite ?events_of_app, ?events_of_log_line; simpl));
    rewrite ?lookup_insert_eq; try done.
  destruct o; simpl; by rewrite ?events_of_log_line.
Qed.

(** C8.  The registry is a finite map keyed by the session id, so a session
    has at most one context.  A second [startExecution] for a session that
    is already tracked leaves the registry exactly as if the first had
    never stored anything: the session's entry is the context built by the
    second call from its own arguments, sequence number and hash (nothing
    of the first context is kept), and no entry is added. *)
Theorem startExecution_overwrites sid path1 marker1 prompt1 path2 marker2 prompt2 t :
  outcome_of (startExecution env sid path1 marker1 prompt1 t) = Returned tt →
  outcome_of (startExecution env sid path2 marker2 prompt2
                (tracker_of (startExecution env sid path1 marker1 prompt1 t)))
    = Returned tt →
  ∃ seq h,
    let after1 := tracker_of (startExecution env sid path1 marker1 prompt1 t) in
    let run2 := startExecution env sid path2 marker2 prompt2 after1 in
    let context2 := mkContext sid path2 marker2 h seq prompt2 in
    In (call_getNextExecutionSequence sid (Returned seq)) (trace_of run2) ∧
    In (call_getCurrentCommitHash path2 (Returned h)) (trace_of run2) ∧
    activeExecutions (tracker_of run2) !! sid = Some context2 ∧
    activeExecutions (tracker_of run2) = <[sid := context2]> (activeExecutions t) ∧
    size (activeExecutions (tracker_of run2)) = size (activeExecutions after1) ∧
    (∀ c1 c2, activeExecutions (tracker_of run2) !! sid = Some c1 →
              activeExecutions (tracker_of run2) !! sid = Some c2 → c1 = c2).
Proof.
  cbv zeta. unfold outcome_of, tracker_of, trace_of.
  destruct (startExecution env sid path1 marker1 prompt1 t) as [[o1 t1] tr1] eqn:Hrun1.
  simpl. intros ->.
  destruct (startExecution env sid path2 marker2 prompt2 t1) as [[o2 t2] tr2] eqn:Hrun2.
  simpl. intros ->.
  apply startExecution_inv in Hrun1
    as [(e & w1 & E1 & ? & _) | [(seq & w1 & e & w2 & _ & _ & ? & _)
                               | (seq1 & w1 & h1 & w2 & w3 & _ & _ & _ & -> & _)]];
    try done.
  apply startExecution_inv in Hrun2
    as [(e & w1' & E1 & ? & _) | [(seq & w1' & e & w2' & _ & _ & ? & _)
                                | (seq & w1' & h & w2' & w3' & _ & _ & _ & -> & ->)]];
    try done.
  exists seq, h. simpl. split; [|split; [|split; [|split; [|split]]]].
  - apply in_or_app. right. by left.
  - apply in_or_app. right. right. by left.
  - apply lookup_insert_eq.
  - apply insert_insert_eq.
  - rewrite insert_insert_eq.
    rewrite <- (insert_insert_eq (activeExecutions t) sid
                  (mkContext sid path1 marker1 h1 seq1 prompt1)
                  (mkContext sid path2 marker2 h seq prompt2)) at 1.
    rewrite !map_size_insert, lookup_insert_eq. done.
  - congruence.
Qed.

(** C9.  With no active context for the session, [endExecution] returns
    normally, leaves the tracker and the world as they were and does
    nothing but write a warning to the log: it calls no collaborator, so it
    persists no record and emits no event.  [cancelExecution] returns
    having done nothing at all. *)
Theorem no_active_context_noop sid t :
  activeExecutions t !! sid = None →
  endExecution env sid t = (Returned tt, t, log_line env warn) ∧
  persisted_of (trace_of (endExecution env sid t)) = [] ∧
  events_of (trace_of (endExecution env sid t)) = [] ∧
  cancelExecution env sid t = (Returned tt, t, []).
Proof.
  intros Hnone.
  assert (endExecution env sid t = (Returned tt, t, log_line env warn)) as Hend.
  { unfold endExecution, try_catch, bind at 1, registry_get. rewrite Hnone.
    unfold bind, log, ret. simpl. by rewrite app_nil_r. }
  rewrite Hend. unfold trace_of. simpl.
  rewrite persisted_of_log_line, events_of_log_line.
  repeat split.
  unfold cancelExecution, bind, registry_get. by rewrite Hnone.
Qed.

(** C10.  [getCombinedDiff(sessionId, executionIds)]: of the records that
    [getExecutionDiffs(sessionId)] returns, the diffs handed to
    [combineDiffs] are exactly those of the records with a non-empty diff
    text, restricted to the given ids only when the list of ids is
    non-empty; none of them has an empty diff; the result is what
    [combineDiffs] answers; and an empty list of ids behaves as no list. *)
Theorem getCombinedDiff_selects sid ids t execs w1 :
  getExecutionDiffs env sid (world t) = (Returned execs, w1) →
  ∃ ds r w2,
    getCombinedDiff env sid ids t
      = (r, mkTracker (activeExecutions t) w2,
         [call_getExecutionDiffs sid (Returned execs); call_combineDiffs ds r]) ∧
    combineDiffs env ds w1 = (r, w2) ∧
    (∀ d, In d ds ↔
          ∃ exec, In exec execs ∧ d = toGitDiffResult exec ∧
                  truthy_opt_string (rec_git_diff exec) = true ∧
                  match ids with
                  | Some (i :: rest) => In (rec_id exec) (i :: rest)
                  | Some [] | None => True
                  end) ∧
    (∀ d, In d ds → diff d ≠ "") ∧
    getCombinedDiff env sid (Some []) t = getCombinedDiff env sid None t.
Proof.
  intros E1.
  set (ds := map toGitDiffResult
               (List.filter (λ exec, truthy_opt_string (rec_git_diff exec))
                            (selectExecutions execs ids))).
  destruct (combineDiffs env ds w1) as [r w2] eqn:E2.
  exists ds, r, w2. split; [|split; [|split; [|split]]].
  - unfold getCombinedDiff, bind, call. rewrite E1. simpl. fold ds. by rewrite E2.
  - done.
  - intros d. unfold ds. rewrite in_map_iff. split.
    + intros (exec & <- & Hin). apply filter_In in Hin as [Hin Htruthy].
      exists exec. split; [|split; [done|split; [done|]]].
      * unfold selectExecutions in Hin. destruct ids as [[|i rest]|]; try done.
        simpl in Hin. by apply filter_In in Hin as [? _].
      * unfold selectExecutions in Hin. destruct ids as [[|i rest]|]; try done.
        simpl in Hin. apply filter_In in Hin as [_ Hid].
        unfold includes in Hid. apply bool_decide_eq_true_1 in Hid.
        by apply list_elem_of_In.
    + intros (exec & Hin & -> & Htruthy & Hids). exists exec. split; [done|].
      apply filter_In. split; [|done].
      unfold selectExecutions. destruct ids as [[|i rest]|]; try done.
      simpl. apply filter_In. split; [done|].
      unfold includes. apply bool_decide_eq_true_2. by apply list_elem_of_In.
  - intros d. unfold ds. rewrite in_map_iff. intros (exec & <- & Hin).
    apply filter_In in Hin as [_ Htruthy]. unfold toGitDiffResult. simpl.
    destruct (rec_git_diff exec) as [[|c text]|]; simpl in *; done.
  - done.
Qed.

(** C6.  Whenever [endExecution] re-reads the commit hash after the commit
    phase and gets [h], the very next call captures the diff: with
    [captureWorkingDirectoryDiff(worktreePath)] if [h] is the context's
    [beforeCommitHash], with [captureCommitDiff(worktreePath,
    beforeCommitHash, h)] otherwise.  The call to [handlePostPromptCommit]
    comes before the re-read, and the run makes no other hash read and no
    other capture call: exactly one of the two captures is invoked. *)
Theorem diff_capture_choice sid ctx t h :
  activeExecutions t !! sid = Some ctx →
  In (call_getCurrentCommitHash (ctx_worktreePath ctx) (Returned h))
     (trace_of (endExecution env sid t)) →
  ∃ r before after settings cr,
    let capture :=
      if bool_decide (h = ctx_beforeCommitHash ctx)
      then call_captureWorkingDirectoryDiff (ctx_worktreePath ctx) r
      else call_captureCommitDiff (ctx_worktreePath ctx)
             (ctx_beforeCommitHash ctx) h r in
    calls (trace_of (endExecution env sid t))
      = before ++ [call_getCurrentCommitHash (ctx_worktreePath ctx) (Returned h);
                   capture] ++ after ∧
    In (call_handlePostPromptCommit sid (ctx_worktreePath ctx) settings
          (ctx_prompt ctx) (ctx_executionSequence ctx) (Returned cr)) before ∧
    only KHash (trace_of (endExecution env sid t))
      = [call_getCurrentCommitHash (ctx_worktreePath ctx) (Returned h)] ∧
    only KCapture (trace_of (endExecution env sid t)) = [capture].
Proof.
  intros Hctx. destruct (endExecution env sid t) as [[o t'] tr] eqn:Hrun.
  unfold trace_of. simpl. intros Hin.
  apply in_calls in Hin; [|done].
  rewrite (only_calls KHash), (only_calls KCapture) by done.
  phases Hctx Hrun; locate Hin.
  all: apply captureExecutionDiff_inv in HD as [(e' & ? & HD) | (h' & HD)];
    rewrite HD in *; clear HD; locate Hin.
  all: try (unfold capture_call in Hin; by case_bool_decide).
  all: unfold capture_call.
  all: eexists _, ([call_getSession sid (Returned session');
                    call_handlePostPromptCommit sid (ctx_worktreePath ctx)
                      (spec_settings (JSON_parse env) session') (ctx_prompt ctx)
                      (ctx_executionSequence ctx) (Returned cr')]
                   ++ calls trB ++ calls trW), _,
         (spec_settings (JSON_parse env) session'), cr'.
  all: split; [rewrite <- !app_assoc; simpl; reflexivity|].
  all: split; [simpl; auto|].
  all: rewrite !only_app.
  all: rewrite ?(footprint_only _ _ _ FB), ?(footprint_only _ _ _ FW),
         ?(footprint_only _ _ _ FE) by (simpl; intuition congruence).
  all: by case_bool_decide.
Qed.

(** C7.  In a run of [endExecution] in which the session was looked up and
    [handlePostPromptCommit] returned: if the resolved commit mode is not
    structured, [waitForStructuredCommit] is not invoked; if it is
    structured, then either reporting the commit result to the session
    output threw (which ends the run), or [waitForStructuredCommit] is
    invoked exactly once, for this session and worktree with a timeout of
    5000 ms, after the call to [handlePostPromptCommit] and before any
    read of the commit hash. *)
Theorem structured_wait sid ctx t session settings cr :
  activeExecutions t !! sid = Some ctx →
  In (call_getSession sid (Returned session)) (trace_of (endExecution env sid t)) →
  In (call_handlePostPromptCommit sid (ctx_worktreePath ctx) settings
        (ctx_prompt ctx) (ctx_executionSequence ctx) (Returned cr))
     (trace_of (endExecution env sid t)) →
  (spec_commitMode session ≠ structured →
   only KWait (trace_of (endExecution env sid t)) = []) ∧
  (spec_commitMode session = structured →
   (∃ data e,
      In (call_addSessionOutput sid data (Threw e))
         (calls (trace_of (endExecution env sid t))) ∧
      (msg_subtype data = autocommit_error ∨ msg_subtype data = autocommit_mode) ∧
      outcome_of (endExecution env sid t) = Threw e ∧
      only KWait (trace_of (endExecution env sid t)) = []) ∨
   (∃ r before after,
      calls (trace_of (endExecution env sid t))
        = before ++ [call_waitForStructuredCommit sid (ctx_worktreePath ctx) 5000 r]
            ++ after ∧
      In (call_handlePostPromptCommit sid (ctx_worktreePath ctx) settings
            (ctx_prompt ctx) (ctx_executionSequence ctx) (Returned cr)) before ∧
      only KHash before = [] ∧
      only KWait before = [] ∧
      only KWait after = [] ∧
      only KCommit after = [])).
Proof.
  intros Hctx. destruct (endExecution env sid t) as [[o t'] tr] eqn:Hrun.
  unfold trace_of, outcome_of. simpl. intros Hsession Hcommit.
  apply in_calls in Hsession; [|done]. apply in_calls in Hcommit; [|done].
  rewrite (only_calls KWait) by done.
  phases Hctx Hrun; locate Hsession; locate Hcommit.
  - (* reporting the commit threw *)
    split; [intros _; no_such|]. intros Hmode. left.
    apply reportCommit_inv in HB
      as [(_ & _ & HB) | [(_ & ? & HB) | [(_ & _ & HB) | (_ & ? & _)]]];
      try congruence; rewrite HB in *;
      eexists _, _; (split; [simpl; eauto|]); (split; [simpl; eauto|]);
      (split; [done|]); no_such.
  - (* the wait threw, or reporting its result did *)
    apply awaitStructuredCommit_inv in HW
      as [(? & ? & ?)
         | (Hmode & [(e & ? & HW) | [(sr & _ & HW)
                    | [(sr & _ & _ & HW) | (sr & _ & _ & ? & HW)]]])];
      try done; rewrite HW in *; (split; [done|]); intros _; right;
      eexists _, ([_; _] ++ calls trB), _;
      (split; [rewrite <- !app_assoc; simpl; reflexivity|]);
      (split; [simpl; auto|]); repeat split; no_such.
  - (* the capture threw *)
    apply awaitStructuredCommit_inv in HW
      as [(? & -> & ?)
         | (Hmode & [(e & ? & HW) | [(sr & _ & HW)
                    | [(sr & _ & _ & HW) | (sr & _ & _ & ? & HW)]]])];
      try done; [split; [intros _; no_such | done] | ..];
      rewrite HW in *; (split; [done|]); intros _; right;
      eexists _, ([_; _] ++ calls trB), _;
      (split; [rewrite <- !app_assoc; simpl; reflexivity|]);
      (split; [simpl; auto|]); repeat split; no_such.
  - (* the run reached the persist phase *)
    apply awaitStructuredCommit_inv in HW
      as [(? & -> & ?)
         | (Hmode & [(e & ? & HW) | [(sr & _ & HW)
                    | [(sr & _ & _ & HW) | (sr & _ & _ & ? & HW)]]])];
      try done; [split; [intros _; no_such | done] | ..];
      rewrite HW in *; (split; [done|]); intros _; right;
      eexists _, ([_; _] ++ calls trB), _;
      (split; [rewrite <- !app_assoc; simpl; reflexivity|]);
      (split; [simpl; auto|]); repeat split; no_such.
Qed.

(** C4.  In a run of [endExecution] in which the session was looked up and
    [handlePostPromptCommit] returned [cr], the messages handed to the
    session output are those of the outcome table and no others:
    [autocommit_error] exactly when the commit failed with an error set
    ([success] false and [error] a non-empty string);
    [autocommit_success] exactly when the mode is checkpoint and the
    commit phase succeeded; [autocommit_mode] exactly when the mode is
    structured and the commit phase succeeded; [autocommit_timeout]
    exactly when the wait for the structured commit answered without
    success; [autocommit_claude_success] exactly when it answered with
    success and a commit hash.  In disabled mode a successful commit phase
    gives no message at all.  Every message goes to the session of the
    run and is one of the five payloads of the source. *)
Theorem session_output_table sid ctx t session settings cr :
  activeExecutions t !! sid = Some ctx →
  In (call_getSession sid (Returned session)) (trace_of (endExecution env sid t)) →
  In (call_handlePostPromptCommit sid (ctx_worktreePath ctx) settings
        (ctx_prompt ctx) (ctx_executionSequence ctx) (Returned cr))
     (trace_of (endExecution env sid t)) →
  let mode := spec_commitMode session in
  let subtypes := subtypes_of (trace_of (endExecution env sid t)) in
  let waited sr :=
    In (call_waitForStructuredCommit sid (ctx_worktreePath ctx) 5000 (Returned sr))
       (calls (trace_of (endExecution env sid t))) in
  (In autocommit_error subtypes ↔
     success cr = false ∧ truthy_opt_string (error cr) = true) ∧
  (In autocommit_success subtypes ↔ mode = checkpoint ∧ success cr = true) ∧
  (In autocommit_mode subtypes ↔ mode = structured ∧ success cr = true) ∧
  (In autocommit_timeout subtypes ↔ ∃ sr, waited sr ∧ success sr = false) ∧
  (In autocommit_claude_success subtypes ↔
     ∃ sr, waited sr ∧ success sr = true ∧
           truthy_opt_string (commitHash sr) = true) ∧
  (mode = disabled → success cr = true → subtypes = []) ∧
  (∀ s data r,
     In (call_addSessionOutput s data r) (calls (trace_of (endExecution env sid t))) →
     s = sid ∧
     (data = commitErrorMessage mode cr ∨ data = commitSuccessMessage cr ∨
      data = structuredModeMessage ∨
      ∃ sr, waited sr ∧ (data = timeoutMessage sr ∨ data = claudeCommitMessage sr))).
Proof.
  intros Hctx. destruct (endExecution env sid t) as [[o t'] tr] eqn:Hrun.
  unfold trace_of. simpl. intros Hsession Hcommit.
  apply in_calls in Hsession; [|done]. apply in_calls in Hcommit; [|done].
  rewrite (subtypes_of_calls tr).
  phases Hctx Hrun; locate Hsession; locate Hcommit.
  all: pose proof (reportCommit_table _ _ _ _ _ _ _ HB)
         as (B1 & B2 & B3 & B4 & B5 & B6 & B7).
  all: try pose proof (awaitStructuredCommit_table _ _ _ _ _ _ _ HW)
         as (W1 & W2 & W3 & W4 & W5 & W6 & W7).
  all: rewrite ?subtypes_of_app; simpl (subtypes_of [_; _]).
  all: rewrite ?(footprint_subtypes _ _ FD), ?(footprint_subtypes _ _ FE)
         by (simpl; intuition congruence).
  all: rewrite ?app_nil_r; simpl ([] ++ _).
  all: split; [|split; [|split; [|split; [|split; [|split]]]]].
  all: try (rewrite ?in_app_iff; tauto).
  (* reporting the commit threw: nobody waited *)
  1: { split; [tauto|]. intros (sr & Hin & _). locate Hin. }
  1: { split; [tauto|]. intros (sr & Hin & _). locate Hin. }
  1: { intros Hmode Hok. by rewrite B7. }
  1: { intros s data r Hin. locate Hin. apply B6 in Hin. tauto. }
  (* the run went on to the wait: the same four rows in each case *)
  all: first
    [ (* autocommit_timeout *)
      solve [ rewrite in_app_iff; split;
              [ intros [Hin|Hin]; [tauto|]; apply W1 in Hin as (sr & Hin & ?);
                exists sr; split; [|done]; rewrite !in_app_iff; auto
              | intros (sr & Hin & ?); locate Hin; right; apply W1; eauto ] ]
    | (* autocommit_claude_success *)
      solve [ rewrite in_app_iff; split;
              [ intros [Hin|Hin]; [tauto|]; apply W2 in Hin as (sr & Hin & ?);
                exists sr; split; [|done]; rewrite !in_app_iff; auto
              | intros (sr & Hin & ?); locate Hin; right; apply W2; eauto ] ]
    | (* disabled *)
      solve [ intros Hmode Hok; rewrite B7, W7 by congruence; done ]
    | (* the payloads *)
      intros s data r Hin; locate Hin;
      [ apply B6 in Hin; tauto
      | apply W6 in Hin as (-> & sr & Hin & ?); split; [done|];
        do 3 right; exists sr; split; [|done]; rewrite !in_app_iff; auto ] ].
Qed.

(** C3.  The resolution of the commit mode (lines 82-109) never throws,
    leaves the tracker alone and calls no collaborator; it yields the mode
    and the settings of the specification's precedence: an explicit
    [commitMode] wins, also over a legacy [autoCommit]; its serialized
    settings, when they parse, are merged over the defaults, with [mode]
    forced to the explicit value; when they do not parse the defaults are
    used (with [mode] the explicit value); without explicit mode, a legacy
    [autoCommit] maps [true] to checkpoint and [false] to disabled;
    otherwise the mode is checkpoint with prefix ["checkpoint: "].
    Whatever the payload, [endExecution] goes on: once the session is
    looked up, [handlePostPromptCommit] is called, with the resolved
    settings. *)
Theorem commit_mode_resolution session t :
  ∃ mode settings,
    outcome_of (resolveCommitMode env session t) = Returned (mode, settings) ∧
    tracker_of (resolveCommitMode env session t) = t ∧
    calls (trace_of (resolveCommitMode env session t)) = [] ∧
    mode = spec_commitMode session ∧
    settings = spec_settings (JSON_parse env) session ∧
    settings !! "mode" = Some (JStr (mode_name mode)) ∧
    (∀ s m, session = Some s → commitMode s = Some m → mode = m) ∧
    (∀ s m payload parsed,
       session = Some s → commitMode s = Some m →
       commitModeSettings s = Some payload → truthy_string payload = true →
       JSON_parse env payload = Some parsed →
       settings = setMode m (spread parsed ∪ defaultSettings)) ∧
    (∀ s m payload,
       session = Some s → commitMode s = Some m →
       commitModeSettings s = Some payload → JSON_parse env payload = None →
       settings = setMode m defaultSettings ∧
       settings !! "checkpointPrefix" = Some (JStr "checkpoint: ")) ∧
    (∀ s legacy,
       session = Some s → commitMode s = None → autoCommit s = Some legacy →
       mode = (if legacy then checkpoint else disabled) ∧
       settings = setMode mode defaultSettings) ∧
    (session = None ∨
     (∃ s, session = Some s ∧ commitMode s = None ∧ autoCommit s = None) →
     mode = checkpoint ∧ settings = defaultSettings ∧
     settings !! "checkpointPrefix" = Some (JStr "checkpoint: ")) ∧
    (∀ sid ctx,
       activeExecutions t !! sid = Some ctx →
       In (call_getSession sid (Returned session))
          (trace_of (endExecution env sid t)) →
       ∃ r, only KCommit (trace_of (endExecution env sid t))
            = [call_handlePostPromptCommit sid (ctx_worktreePath ctx) settings
                 (ctx_prompt ctx) (ctx_executionSequence ctx) r]).
Proof.
  exists (spec_commitMode session), (spec_settings (JSON_parse env) session).
  destruct (resolveCommitMode env session t) as [[o t'] tr] eqn:Hrun.
  apply resolveCommitMode_inv in Hrun as (-> & -> & Hquiet).
  unfold outcome_of, tracker_of, trace_of. simpl.
  do 5 (split; [done|]).
  split; [|split; [|split; [|split; [|split; [|split]]]]].
  - unfold spec_settings, spec_commitMode, setMode, defaultSettings.
    destruct session as [[[m|] payload [[|]|]]|]; simpl;
      repeat case_match; by rewrite ?lookup_insert_eq.
  - intros s m -> Hm. simpl. by rewrite Hm.
  - intros s m payload parsed -> Hm Hpayload Htruthy Hparse. simpl.
    by rewrite Hm, Hpayload, Htruthy, Hparse.
  - intros s m payload -> Hm Hpayload Hparse. simpl.
    rewrite Hm, Hpayload, Hparse. split; [by destruct (truthy_string payload)|].
    by destruct (truthy_string payload).
  - intros s legacy -> Hm Hlegacy. simpl. rewrite Hm, Hlegacy.
    by destruct legacy.
  - intros [->|(s & -> & Hm & Hlegacy)]; simpl; [done|]. by rewrite Hm, Hlegacy.
  - intros sid ctx Hctx.
    destruct (endExecution env sid t) as [[o t'] tr'] eqn:Hend.
    unfold trace_of. simpl. intros Hsession.
    apply in_calls in Hsession; [|done]. rewrite (only_calls KCommit) by done.
    phases Hctx Hend; locate Hsession; eexists; no_such.
Qed.

(** C1, as the code has it.  A call to [endExecution] for a tracked session
    persists at most one record.  When the call returns, it has persisted
    exactly one, through [createExecutionDiff], built from the diff that
    was captured: its [stats_files_changed] is the [filesChanged] of that
    diff, zero or not, also when the hash after the run is the hash before
    it; and it has emitted exactly one event, [execution-completed] with
    the session id, the execution sequence of the context, the id of the
    record that [createExecutionDiff] returned and the stats of the
    captured diff. *)
Theorem endExecution_persists_one sid ctx t :
  activeExecutions t !! sid = Some ctx →
  (length (persisted_of (trace_of (endExecution env sid t))) ≤ 1)%nat ∧
  (outcome_of (endExecution env sid t) = Returned tt →
   ∃ h executionDiff created,
     only KHash (trace_of (endExecution env sid t))
       = [call_getCurrentCommitHash (ctx_worktreePath ctx) (Returned h)] ∧
     only KCapture (trace_of (endExecution env sid t))
       = [capture_call ctx h (Returned executionDiff)] ∧
     only KPersist (trace_of (endExecution env sid t))
       = [call_createExecutionDiff (diffDataOf sid ctx executionDiff)
            (Returned created)] ∧
     persisted_of (trace_of (endExecution env sid t))
       = [diffDataOf sid ctx executionDiff] ∧
     stats_files_changed (diffDataOf sid ctx executionDiff)
       = filesChanged (stats executionDiff) ∧
     events_of (trace_of (endExecution env sid t))
       = [execution_completed sid (ctx_executionSequence ctx) (rec_id created)
            (stats executionDiff)]).
Proof.
  intros Hctx. destruct (endExecution env sid t) as [[o t'] tr] eqn:Hrun.
  unfold trace_of, outcome_of. simpl.
  rewrite (only_calls KHash), (only_calls KCapture), (only_calls KPersist) by done.
  rewrite (persisted_of_calls tr), (events_of_calls tr).
  phases Hctx Hrun.
  all: try (apply captureExecutionDiff_inv in HD as [(e & ? & HD) | (h & HD)];
            simplify_eq; rewrite HD in *).
  all: try (apply persistAndComplete_inv in HE as [(e & ? & HE) | (created & HE)];
            simplify_eq; rewrite HE in *).
  all: (split; [|first [done | intros ->]]).
  all: rewrite ?persisted_of_app;
    rewrite ?(footprint_persisted _ _ FB), ?(footprint_persisted _ _ FW),
      ?(footprint_persisted _ _ FD) by (simpl; intuition congruence);
    try (simpl; lia).
  exists h, executionDiff, created.
  rewrite !events_of_app.
  rewrite !(footprint_events _ _ FB), !(footprint_events _ _ FW)
    by (simpl; intuition congruence).
  repeat split; try no_such;
    unfold capture_call; by destruct (bool_decide (h = ctx_beforeCommitHash ctx)).
Qed.

(** * Further results *)

(** *** Fail-fast methods *)

Lemma calls_singleton ef : kind_of ef ≠ KLog → calls [ef] = [ef].
Proof. intros Hk. unfold calls. simpl. by rewrite bool_decide_eq_false_2. Qed.

Lemma fail_fast_quiet {A} (m : M W A) :
  (∀ t, ∃ a, outcome_of (m t) = Returned a ∧ calls (trace_of (m t)) = []) →
  fail_fast m.
Proof.
  intros H t. destruct (H t) as (a & Ho & Hc).
  unfold fail_fast_run. rewrite Ho, Hc. constructor.
Qed.

Lemma fail_fast_ret {A} (a : A) : fail_fast (@ret W A a).
Proof. apply fail_fast_quiet. intros t. by exists a. Qed.

Lemma fail_fast_log lvl : fail_fast (log env lvl).
Proof.
  apply fail_fast_quiet. intros t. exists tt. split; [done|].
  apply calls_log_line.
Qed.

Lemma fail_fast_consoleLog : fail_fast (@consoleLog W).
Proof. apply fail_fast_quiet. intros t. by exists tt. Qed.

Lemma fail_fast_registry_get sid : fail_fast (@registry_get W sid).
Proof. apply fail_fast_quiet. intros t. by eexists. Qed.

Lemma fail_fast_registry_set sid ctx : fail_fast (@registry_set W sid ctx).
Proof. apply fail_fast_quiet. intros t. by exists tt. Qed.

Lemma fail_fast_registry_delete sid : fail_fast (@registry_delete W sid).
Proof. apply fail_fast_quiet. intros t. by exists tt. Qed.

Lemma fail_fast_call {A} (f : W → Outcome A * W) record :
  (∀ r, kind_of (record r) ≠ KLog) →
  (∀ r, thrown_by (record r) = failure r) →
  fail_fast (call f record).
Proof.
  intros Hk Hthrown t. unfold call, fail_fast_run, outcome_of, trace_of.
  destruct (f (world t)) as [[a|e] w]; cbn [fst snd];
    rewrite calls_singleton by done.
  - constructor; [|constructor]. by rewrite Hthrown.
  - exists [], (record (Threw e)). rewrite Hthrown. by repeat split.
Qed.

Lemma fail_fast_bind {A B} (m : M W A) (k : A → M W B) :
  fail_fast m → (∀ a, fail_fast (k a)) → fail_fast (bind m k).
Proof.
  intros Hm Hk t. specialize (Hm t).
  unfold bind, fail_fast_run, outcome_of, trace_of in *.
  destruct (m t) as [[[a|e] t1] tr1]; simpl in *; [|done].
  specialize (Hk a t1). unfold fail_fast_run, outcome_of, trace_of in Hk.
  destruct (k a t1) as [[[b|e] t2] tr2]; simpl in *; rewrite calls_app.
  - by apply Forall_app.
  - destruct Hk as (before & last & -> & Hlast & Hbefore).
    exists (calls tr1 ++ before), last. rewrite app_assoc.
    split; [done|]. split; [done|]. by apply Forall_app.
Qed.

(** A catch clause that cleans up without calling anybody and throws the
    error it caught keeps a method fail-fast. *)
Lemma fail_fast_rethrow {A} (body : M W A) (handler : Exn → M W A) :
  fail_fast body →
  (∀ e t, outcome_of (handler e t) = Threw e ∧ calls (trace_of (handler e t)) = []) →
  fail_fast (try_catch body handler).
Proof.
  intros Hbody Hhandler t. specialize (Hbody t).
  unfold try_catch, fail_fast_run, outcome_of, trace_of in *.
  destruct (body t) as [[[a|e] t1] tr1]; simpl in *; [done|].
  destruct (Hhandler e t1) as [Ho Hc]. unfold outcome_of, trace_of in Ho, Hc.
  destruct (handler e t1) as [[o t2] tr2]; simpl in *. subst o.
  by rewrite calls_app, Hc, app_nil_r.
Qed.

(** Walks through the body of a method, one statement at a time. *)
Ltac fail_fast_steps :=
  repeat first
    [ apply fail_fast_ret | apply fail_fast_log | apply fail_fast_consoleLog
    | apply fail_fast_registry_get | apply fail_fast_registry_set
    | apply fail_fast_registry_delete
    | apply fail_fast_call; [by intros ? | by intros ?]
    | apply fail_fast_bind; [|intros ?]
    | case_match ].

Lemma fail_fast_endTracked sid ctx : fail_fast (endTracked env sid ctx).
Proof.
  unfold endTracked, resolveCommitMode, reportCommit, awaitStructuredCommit,
    captureExecutionDiff, persistAndComplete, emit, sessionOutput.
  fail_fast_steps.
Qed.

(** X1.  Every method of the tracker stops at the first call that throws
    and throws that very error: in a run that throws [e] the last call made
    is the only one that threw, and it threw [e]; in a run that returns no
    call threw.  The catch clauses of [startExecution] and [endExecution]
    neither swallow nor replace an error, and a failed commit or a timeout,
    which are returned and not thrown, never make [endExecution] throw. *)
Theorem methods_fail_fast sid :
  (∀ path marker prompt, fail_fast (startExecution env sid path marker prompt)) ∧
  fail_fast (endExecution env sid) ∧
  fail_fast (cancelExecution env sid) ∧
  (∀ ids, fail_fast (getCombinedDiff env sid ids)) ∧
  fail_fast (ExecutionTracker.getExecutionDiffs env sid).
Proof.
  split; [|split; [|split; [|split]]].
  - intros path marker prompt. unfold startExecution, emit.
    apply fail_fast_rethrow; [fail_fast_steps|].
    intros e t. unfold outcome_of, trace_of, bind, log, throw. simpl.
    by rewrite app_nil_r, calls_log_line.
  - unfold endExecution. apply fail_fast_rethrow.
    + apply fail_fast_bind; [apply fail_fast_registry_get|].
      intros [ctx|]; [apply fail_fast_endTracked | fail_fast_steps].
    + intros e t. unfold outcome_of, trace_of, bind, log, registry_delete, throw.
      simpl. by rewrite app_nil_r, calls_log_line.
  - unfold cancelExecution, emit. fail_fast_steps.
  - intros ids. unfold getCombinedDiff. fail_fast_steps.
  - unfold ExecutionTracker.getExecutionDiffs. fail_fast_steps.
Qed.

(** *** The registry, method by method *)

Lemma endExecution_untracked sid t :
  activeExecutions t !! sid = None →
  endExecution env sid t = (Returned tt, t, log_line env warn).
Proof.
  intros Hnone. unfold endExecution, try_catch, bind at 1, registry_get.
  rewrite Hnone. unfold bind, log, ret. simpl. by rewrite app_nil_r.
Qed.

Lemma cancelExecution_untracked sid t :
  activeExecutions t !! sid = None →
  cancelExecution env sid t = (Returned tt, t, []).
Proof.
  intros Hnone. unfold cancelExecution, bind, registry_get. by rewrite Hnone.
Qed.

Lemma cancelExecution_tracked sid ctx t :
  activeExecutions t !! sid = Some ctx →
  ∃ r w,
    listeners env (execution_cancelled sid (ctx_executionSequence ctx)) (world t)
      = (r, w) ∧
    cancelExecution env sid t
      = (r, mkTracker (delete sid (activeExecutions t)) w,
         log_line env verbose
           ++ [emitted (execution_cancelled sid (ctx_executionSequence ctx)) r]).
Proof.
  intros Hctx.
  destruct (listeners env (execution_cancelled sid (ctx_executionSequence ctx))
              (world t)) as [r w] eqn:E.
  exists r, w. split; [done|].
  unfold cancelExecution, bind at 1, registry_get. rewrite Hctx.
  unfold bind, log, registry_delete, emit, call. simpl. rewrite E.
  by destruct r.
Qed.

Lemma endExecution_registry sid t :
  activeExecutions (tracker_of (endExecution env sid t))
  = delete sid (activeExecutions t).
Proof.
  destruct (activeExecutions t !! sid) as [ctx|] eqn:Hctx.
  - unfold endExecution, try_catch, bind at 1, registry_get. rewrite Hctx.
    pose proof (endTracked_registry sid ctx t) as Hreg.
    unfold tracker_of, outcome_of in *.
    destruct (endTracked env sid ctx t) as [[[[]|e] t1] tr1]; simpl in *; [done|].
    unfold bind, log, registry_delete, throw. simpl. by rewrite Hreg.
  - rewrite (endExecution_untracked _ _ Hctx). unfold tracker_of. simpl.
    by rewrite delete_id.
Qed.

Lemma cancelExecution_registry sid t :
  activeExecutions (tracker_of (cancelExecution env sid t))
  = delete sid (activeExecutions t).
Proof.
  destruct (activeExecutions t !! sid) as [ctx|] eqn:Hctx.
  - destruct (cancelExecution_tracked _ _ _ Hctx) as (r & w & _ & ->). done.
  - rewrite (cancelExecution_untracked _ _ Hctx). unfold tracker_of. simpl.
    by rewrite delete_id.
Qed.

Lemma startExecution_registry sid path marker prompt t :
  activeExecutions (tracker_of (startExecution env sid path marker prompt t))
    = activeExecutions t ∧
  returned (outcome_of (startExecution env sid path marker prompt t)) = false ∨
  ∃ seq h,
    In (call_getNextExecutionSequence sid (Returned seq))
       (trace_of (startExecution env sid path marker prompt t)) ∧
    In (call_getCurrentCommitHash path (Returned h))
       (trace_of (startExecution env sid path marker prompt t)) ∧
    activeExecutions (tracker_of (startExecution env sid path marker prompt t))
      = <[sid := mkContext sid path marker h seq prompt]> (activeExecutions t).
Proof.
  destruct (startExecution env sid path marker prompt t) as [[o t'] tr] eqn:Hrun.
  unfold tracker_of, outcome_of, trace_of. simpl.
  apply startExecution_inv in Hrun
    as [(e & w1 & _ & -> & -> & _)
       | [(seq & w1 & e & w2 & _ & _ & -> & -> & _)
         | (seq & w1 & h & w2 & w3 & _ & _ & _ & -> & ->)]];
    [by left | by left |].
  right. exists seq, h. split; [|split; [|done]].
  - apply in_or_app. right. by left.
  - apply in_or_app. right. right. by left.
Qed.

(** X2.  [cancelExecution] on a tracked session forgets the context first
    and then emits one [execution-cancelled] event with the sequence number
    of that context; it calls no collaborator, so it persists nothing and
    writes no session output, and its outcome is that of the listeners: if
    one of them throws, the session is untracked all the same. *)
Theorem cancelExecution_forgets_then_notifies sid ctx t :
  activeExecutions t !! sid = Some ctx →
  calls (trace_of (cancelExecution env sid t))
    = [emitted (execution_cancelled sid (ctx_executionSequence ctx))
         (outcome_of (cancelExecution env sid t))] ∧
  events_of (trace_of (cancelExecution env sid t))
    = [execution_cancelled sid (ctx_executionSequence ctx)] ∧
  persisted_of (trace_of (cancelExecution env sid t)) = [] ∧
  subtypes_of (trace_of (cancelExecution env sid t)) = [] ∧
  activeExecutions (tracker_of (cancelExecution env sid t))
    = delete sid (activeExecutions t) ∧
  activeExecutions (tracker_of (cancelExecution env sid t)) !! sid = None.
Proof.
  intros Hctx. destruct (cancelExecution_tracked _ _ _ Hctx) as (r & w & _ & ->).
  unfold trace_of, tracker_of, outcome_of. simpl.
  rewrite calls_app, events_of_app, persisted_of_app, subtypes_of_app.
  rewrite calls_log_line, events_of_log_line, persisted_of_log_line.
  rewrite (subtypes_of_calls (log_line env verbose)), calls_log_line.
  repeat split. apply lookup_delete_eq.
Qed.

(** X3.  What each method does to the registry, whatever its outcome:
    [startExecution] either leaves it alone (and then it threw) or files
    the new context under the session; [endExecution] and
    [cancelExecution] remove the entry of the session; [getCombinedDiff]
    and [getExecutionDiffs] leave it alone.  In particular no method
    touches the context of another session. *)
Theorem registry_effects sid t :
  (∀ path marker prompt,
     (activeExecutions (tracker_of (startExecution env sid path marker prompt t))
        = activeExecutions t ∧
      returned (outcome_of (startExecution env sid path marker prompt t)) = false) ∨
     (∃ ctx,
        activeExecutions (tracker_of (startExecution env sid path marker prompt t))
          = <[sid := ctx]> (activeExecutions t))) ∧
  activeExecutions (tracker_of (endExecution env sid t))
    = delete sid (activeExecutions t) ∧
  activeExecutions (tracker_of (cancelExecution env sid t))
    = delete sid (activeExecutions t) ∧
  (∀ ids, activeExecutions (tracker_of (getCombinedDiff env sid ids t))
          = activeExecutions t) ∧
  activeExecutions (tracker_of (ExecutionTracker.getExecutionDiffs env sid t))
    = activeExecutions t ∧
  (∀ other path marker prompt,
     other ≠ sid →
     activeExecutions (tracker_of (startExecution env sid path marker prompt t))
       !! other = activeExecutions t !! other ∧
     activeExecutions (tracker_of (endExecution env sid t)) !! other
       = activeExecutions t !! other ∧
     activeExecutions (tracker_of (cancelExecution env sid t)) !! other
       = activeExecutions t !! other).
Proof.
  split; [|split; [|split; [|split; [|split]]]].
  - intros path marker prompt.
    destruct (startExecution_registry sid path marker prompt t)
      as [?|(seq & h & _ & _ & ?)]; [by left | right; eauto].
  - apply endExecution_registry.
  - apply cancelExecution_registry.
  - intros ids. unfold getCombinedDiff.
    apply keeps_bind; [apply keeps_call | intros ?; apply keeps_call].
  - unfold ExecutionTracker.getExecutionDiffs.
    apply keeps_bind; [apply keeps_call | intros ?; apply keeps_ret].
  - intros other path marker prompt Hother.
    rewrite endExecution_registry, cancelExecution_registry.
    rewrite !lookup_delete_ne by done. split; [|done].
    destruct (startExecution_registry sid path marker prompt t)
      as [[-> _]|(seq & h & _ & _ & ->)]; [done|].
    by rewrite lookup_insert_ne.
Qed.

(** X4.  Every context is filed under its own session id: this holds of
    the empty registry of a new tracker and is kept by [startExecution],
    [endExecution] and [cancelExecution], whatever their outcome; so the
    context that [getExecutionContext] returns for a session names that
    session. *)
Theorem registry_stays_keyed sid t :
  registry_keyed (activeExecutions t) →
  (∀ path marker prompt,
     registry_keyed
       (activeExecutions (tracker_of (startExecution env sid path marker prompt t)))) ∧
  registry_keyed (activeExecutions (tracker_of (endExecution env sid t))) ∧
  registry_keyed (activeExecutions (tracker_of (cancelExecution env sid t))) ∧
  (∀ other ctx,
     outcome_of (getExecutionContext other t) = Returned (Some ctx) →
     ctx_sessionId ctx = other) ∧
  (∀ w : W, registry_keyed (activeExecutions (newTracker w))).
Proof.
  intros Hkeyed. split; [|split; [|split; [|split]]].
  - intros path marker prompt.
    destruct (startExecution_registry sid path marker prompt t)
      as [[-> _]|(seq & h & _ & _ & ->)]; [done|].
    intros k c. destruct (decide (k = sid)) as [->|Hk].
    + rewrite lookup_insert_eq. by intros [= <-].
    + rewrite lookup_insert_ne by done. apply Hkeyed.
  - rewrite endExecution_registry. intros k c.
    destruct (decide (k = sid)) as [->|Hk].
    + by rewrite lookup_delete_eq.
    + rewrite lookup_delete_ne by done. apply Hkeyed.
  - rewrite cancelExecution_registry. intros k c.
    destruct (decide (k = sid)) as [->|Hk].
    + by rewrite lookup_delete_eq.
    + rewrite lookup_delete_ne by done. apply Hkeyed.
  - intros other ctx. unfold getExecutionContext, registry_get, outcome_of. simpl.
    intros [= Hlookup]. by apply Hkeyed.
  - intros w k c. unfold newTracker. simpl. by rewrite lookup_empty.
Qed.

(** X5.  Ending or cancelling twice does nothing the second time: after
    [endExecution] or [cancelExecution] for a session, whatever their
    outcome and whatever happened to the world since, a further
    [endExecution] returns having made no call (it persists no second
    record and emits no second event), and a further [cancelExecution]
    returns having done nothing. *)
Theorem second_end_or_cancel_is_noop sid t (w : W) :
  let after_end := activeExecutions (tracker_of (endExecution env sid t)) in
  let after_cancel := activeExecutions (tracker_of (cancelExecution env sid t)) in
  endExecution env sid (mkTracker after_end w)
    = (Returned tt, mkTracker after_end w, log_line env warn) ∧
  cancelExecution env sid (mkTracker after_end w)
    = (Returned tt, mkTracker after_end w, []) ∧
  endExecution env sid (mkTracker after_cancel w)
    = (Returned tt, mkTracker after_cancel w, log_line env warn) ∧
  cancelExecution env sid (mkTracker after_cancel w)
    = (Returned tt, mkTracker after_cancel w, []) ∧
  calls (trace_of (endExecution env sid (mkTracker after_end w))) = [].
Proof.
  cbv zeta. rewrite endExecution_registry, cancelExecution_registry.
  assert (delete sid (activeExecutions t) !! sid = None) as Hnone
    by apply lookup_delete_eq.
  rewrite !endExecution_untracked, !cancelExecution_untracked by done.
  repeat split. unfold trace_of. simpl. apply calls_log_line.
Qed.

(** *** Properties of every call of a method *)

Lemma all_calls_quiet {A} (P : Effect → Prop) (m : M W A) :
  (∀ t, calls (trace_of (m t)) = []) → all_calls P m.
Proof. intros H t. rewrite H. constructor. Qed.

Lemma all_calls_ret {A} P (a : A) : all_calls P (@ret W A a).
Proof. by apply all_calls_quiet. Qed.

Lemma all_calls_log P lvl : all_calls P (log env lvl).
Proof. apply all_calls_quiet. intros t. apply calls_log_line. Qed.

Lemma all_calls_consoleLog P : all_calls P (@consoleLog W).
Proof. by apply all_calls_quiet. Qed.

Lemma all_calls_registry_delete P sid : all_calls P (@registry_delete W sid).
Proof. by apply all_calls_quiet. Qed.

Lemma all_calls_call {A} (P : Effect → Prop) (f : W → Outcome A * W) record :
  (∀ r, P (record r)) → all_calls P (call f record).
Proof.
  intros HP t. unfold call, trace_of, calls. destruct (f (world t)) as [r w].
  simpl. case_match; repeat constructor. apply HP.
Qed.

Lemma all_calls_bind {A B} P (m : M W A) (k : A → M W B) :
  all_calls P m → (∀ a, all_calls P (k a)) → all_calls P (bind m k).
Proof.
  intros Hm Hk t. specialize (Hm t). unfold bind, trace_of in *.
  destruct (m t) as [[[a|e] t1] tr1]; simpl in *; [|done].
  specialize (Hk a t1). unfold trace_of in Hk.
  destruct (k a t1) as [[o t2] tr2]; simpl in *.
  rewrite calls_app. by apply Forall_app.
Qed.

(** From the calls to the whole trace, for a property that log lines have. *)
Lemma calls_to_trace (P : Effect → Prop) tr :
  (∀ ef, kind_of ef = KLog → P ef) → Forall P (calls tr) → Forall P tr.
Proof.
  intros Hlog Hcalls. apply List.Forall_forall. intros ef Hin.
  destruct (decide (kind_of ef = KLog)) as [Hk|Hk]; [by apply Hlog|].
  eapply footprint_in; [exact Hcalls|]. by apply in_calls.
Qed.

Ltac all_calls_steps obligation :=
  repeat first
    [ apply all_calls_ret | apply all_calls_log | apply all_calls_consoleLog
    | apply all_calls_registry_delete
    | apply all_calls_call; intros ?; solve [obligation]
    | apply all_calls_bind; [|intros ?]
    | case_match ].

Lemma endTracked_uses_context sid ctx :
  all_calls (uses_context sid ctx) (endTracked env sid ctx).
Proof.
  unfold endTracked, resolveCommitMode, reportCommit, awaitStructuredCommit,
    captureExecutionDiff, persistAndComplete, emit, sessionOutput.
  all_calls_steps
    ltac:(simpl; repeat split; eauto;
          match goal with
          | H : bool_decide _ = false |- _ => by apply bool_decide_eq_false_1 in H
          end).
Qed.

Lemma truthy_or_default (o : option string) (fallback : string) :
  truthy_string fallback = true →
  truthy_string (if truthy_opt_string o then default "" o else fallback) = true.
Proof. intros Hf. by destruct o as [[|c rest]|]. Qed.

Lemma endTracked_outputs_well_formed sid ctx :
  all_calls (well_formed_output sid) (endTracked env sid ctx).
Proof.
  unfold endTracked, resolveCommitMode, reportCommit, awaitStructuredCommit,
    captureExecutionDiff, persistAndComplete, emit, sessionOutput.
  all_calls_steps
    ltac:(simpl; try done; unfold well_formed_message; simpl;
          repeat match goal with
          | H : _ && _ = true |- _ => apply andb_true_iff in H as [??]
          end;
          repeat split; try done; by apply truthy_or_default).
Qed.

Lemma tracked_run_uses_context sid ctx t :
  activeExecutions t !! sid = Some ctx →
  Forall (uses_context sid ctx) (trace_of (endExecution env sid t)).
Proof.
  intros Hctx. apply calls_to_trace; [by intros []|].
  destruct (endExecution env sid t) as [[o t'] tr] eqn:Hrun.
  apply (endExecution_inv _ _ _ _ _ _ Hctx) in Hrun as (t1 & tr1 & Hrun & Hcalls).
  unfold trace_of. simpl. rewrite Hcalls.
  pose proof (endTracked_uses_context sid ctx t) as Hall.
  by rewrite Hrun in Hall.
Qed.

(** X6.  A run of [endExecution] for a tracked session only ever speaks of
    that session and of its context: the worktree, the prompt and the
    sequence number handed to the commit manager, the worktree and the
    5000 ms of the wait, the worktree of the hash read and of the capture
    (a commit-range capture goes from the context's [beforeCommitHash] to
    a different hash), the session, prompt marker and sequence of the
    record, the session and sequence of the [execution-completed] event.
    It never allocates a sequence number, never queries the persisted
    diffs and never combines diffs. *)
Theorem endExecution_uses_only_its_context sid ctx t :
  activeExecutions t !! sid = Some ctx →
  Forall (uses_context sid ctx) (trace_of (endExecution env sid t)).
Proof. apply tracked_run_uses_context. Qed.

(** X7.  Every message that [endExecution] hands to the session output is
    for the session of the call and has the fields of its subtype:
    [autocommit_error] and [autocommit_timeout] carry a non-empty error
    text and no commit hash (the timeout falls back to a fixed text when
    the wait reported none); [autocommit_claude_success] carries a
    non-empty commit hash; [autocommit_mode], [autocommit_timeout] and
    [autocommit_claude_success] say structured, [autocommit_success] says
    checkpoint. *)
Theorem session_outputs_well_formed sid t :
  Forall (well_formed_output sid) (trace_of (endExecution env sid t)).
Proof.
  apply calls_to_trace; [by intros []|].
  destruct (activeExecutions t !! sid) as [ctx|] eqn:Hctx.
  - destruct (endExecution env sid t) as [[o t'] tr] eqn:Hrun.
    apply (endExecution_inv _ _ _ _ _ _ Hctx) in Hrun as (t1 & tr1 & Hrun & Hcalls).
    unfold trace_of. simpl. rewrite Hcalls.
    pose proof (endTracked_outputs_well_formed sid ctx t) as Hall.
    by rewrite Hrun in Hall.
  - rewrite (endExecution_untracked _ _ Hctx). unfold trace_of. simpl.
    rewrite calls_log_line. constructor.
Qed.

(** *** The order of the calls *)

Lemma phases_of_app tr1 tr2 : phases_of (tr1 ++ tr2) = phases_of tr1 ++ phases_of tr2.
Proof. apply omap_app. Qed.

Lemma phases_of_calls tr : phases_of tr = phases_of (calls tr).
Proof.
  induction tr as [|ef tr IH]; [done|].
  change (ef :: tr) with ([ef] ++ tr).
  rewrite calls_app, !phases_of_app, IH. f_equal. by destruct ef.
Qed.

(** X8.  In a run of [endExecution] each of these steps is taken at most
    once and in this order: session lookup, commit, wait, hash read, diff
    capture, persistence, completion event; a later step is never taken
    before an earlier one, whatever the run skips and wherever it stops.
    At most two messages are written to the session output. *)
Theorem endExecution_call_order sid t :
  StronglySorted lt (phases_of (trace_of (endExecution env sid t))) ∧
  (length (only KOutput (trace_of (endExecution env sid t))) ≤ 2)%nat.
Proof.
  destruct (activeExecutions t !! sid) as [ctx|] eqn:Hctx.
  - destruct (endExecution env sid t) as [[o t'] tr] eqn:Hrun.
    unfold trace_of. simpl.
    rewrite (phases_of_calls tr), (only_calls KOutput tr) by done.
    phases Hctx Hrun.
    all: try (apply reportCommit_inv in HB
                as [(_ & _ & HB) | [(_ & _ & HB) | [(_ & _ & HB) | (HB & _)]]];
              rewrite HB in *).
    all: try (apply awaitStructuredCommit_inv in HW
                as [(_ & -> & _)
                   | (_ & [(? & _ & HW) | [(? & _ & HW)
                          | [(? & _ & _ & HW) | (? & _ & _ & _ & HW)]]])];
              try rewrite HW in *).
    all: try (apply captureExecutionDiff_inv in HD as [(? & _ & HD) | (? & HD)];
              rewrite HD in *).
    all: try (apply persistAndComplete_inv in HE as [(? & _ & HE) | (? & HE)];
              rewrite HE in *).
    all: unfold capture_call; try destruct (bool_decide (_ = ctx_beforeCommitHash ctx)).
    all: simpl; split; [|lia].
    all: repeat first [ apply SSorted_nil | apply SSorted_cons
                      | apply List.Forall_nil | apply List.Forall_cons | lia ].
  - rewrite (endExecution_untracked _ _ Hctx). unfold trace_of. simpl.
    rewrite (phases_of_calls (log_line env warn)), (only_calls KOutput) by done.
    rewrite calls_log_line. simpl. split; [constructor | lia].
Qed.

(** *** From the start of an execution to its end *)

(** X9.  What [startExecution] recorded is what the end of the execution
    works with, whatever happened to the world in between: after a
    [startExecution] that returned, having allocated the sequence number
    [seq] and read the hash [h], [getExecutionContext] returns the context
    made of the arguments of the call, [seq] and [h]; a following
    [endExecution] measures a commit-range diff from [h], in the worktree
    given at the start, and persists and announces under [seq] and the
    prompt marker given at the start; a following [cancelExecution]
    announces [seq]. *)
Theorem start_then_end_or_cancel sid path marker prompt t :
  outcome_of (startExecution env sid path marker prompt t) = Returned tt →
  ∃ seq h,
    In (call_getNextExecutionSequence sid (Returned seq))
       (trace_of (startExecution env sid path marker prompt t)) ∧
    In (call_getCurrentCommitHash path (Returned h))
       (trace_of (startExecution env sid path marker prompt t)) ∧
    ∀ w : W,
      let later :=
        mkTracker
          (activeExecutions (tracker_of (startExecution env sid path marker prompt t)))
          w in
      outcome_of (getExecutionContext sid later)
        = Returned (Some (mkContext sid path marker h seq prompt)) ∧
      Forall (uses_context sid (mkContext sid path marker h seq prompt))
             (trace_of (endExecution env sid later)) ∧
      events_of (trace_of (cancelExecution env sid later))
        = [execution_cancelled sid seq].
Proof.
  intros Hreturned.
  destruct (startExecution_registry sid path marker prompt t)
    as [[_ Hthrew]|(seq & h & Hseq & Hhash & Hregistry)].
  { rewrite Hreturned in Hthrew. discriminate Hthrew. }
  exists seq, h. split; [done|]. split; [done|]. intros w. cbv zeta.
  rewrite Hregistry.
  set (ctx := mkContext sid path marker h seq prompt).
  set (later := mkTracker (<[sid := ctx]> (activeExecutions t)) w).
  assert (activeExecutions later !! sid = Some ctx) as Hctx
    by apply lookup_insert_eq.
  split; [|split].
  - unfold getExecutionContext, registry_get, outcome_of. simpl.
    by rewrite lookup_insert_eq.
  - by apply tracked_run_uses_context.
  - destruct (cancelExecution_tracked _ _ _ Hctx) as (r & w' & _ & ->).
    unfold trace_of. simpl. by rewrite events_of_app, events_of_log_line.
Qed.

(** *** The combined diff *)

Lemma filter_sublist {A} (f : A → bool) (l : list A) : sublist (List.filter f l) l.
Proof.
  induction l as [|x l IH]; [constructor|]. simpl.
  destruct (f x); by constructor.
Qed.

Lemma filter_mono_sublist {A} (f : A → bool) (l1 l2 : list A) :
  sublist l1 l2 → sublist (List.filter f l1) (List.filter f l2).
Proof.
  induction 1 as [|x l1 l2 _ IH|x l1 l2 _ IH]; simpl.
  - constructor.
  - destruct (f x); [by constructor | done].
  - destruct (f x); [by constructor | done].
Qed.

Lemma selectExecutions_sublist execs ids : sublist (selectExecutions execs ids) execs.
Proof.
  unfold selectExecutions. destruct ids as [ids|]; [|done].
  case_bool_decide; [apply filter_sublist | done].
Qed.

(** X10.  [getCombinedDiff] takes the ids as a set: two lists of ids with
    the same elements, in any order and with any repetition, give the same
    run, call for call. *)
Theorem getCombinedDiff_ids_as_set sid ids1 ids2 t :
  (∀ id, In id ids1 ↔ In id ids2) →
  getCombinedDiff env sid (Some ids1) t = getCombinedDiff env sid (Some ids2) t.
Proof.
  intros Hsame. unfold getCombinedDiff.
  assert (∀ execs, selectExecutions execs (Some ids1)
                   = selectExecutions execs (Some ids2)) as Hselect.
  { intros execs. unfold selectExecutions.
    destruct ids1 as [|i1 rest1], ids2 as [|i2 rest2].
    - done.
    - destruct (proj2 (Hsame i2)); by left.
    - destruct (proj1 (Hsame i1)); by left.
    - rewrite !bool_decide_eq_true_2 by (simpl; lia).
      apply filter_ext. intros exec. unfold includes.
      apply bool_decide_ext. rewrite !list_elem_of_In. apply Hsame. }
  unfold bind. destruct (call _ _ t) as [[[execs|e] t1] tr1]; [|done].
  by rewrite Hselect.
Qed.

(** X11.  The diffs that [getCombinedDiff] hands to [combineDiffs] are
    those of a sub-list of the records of the session, in the order of
    the records (not of the ids) and each record at most as often as it
    occurs; a selection by ids hands over a sub-list of what no selection
    hands over; and a non-empty list of ids none of which is the id of a
    record hands over the empty list, not everything. *)
Theorem getCombinedDiff_keeps_order sid ids t execs w1 :
  getExecutionDiffs env sid (world t) = (Returned execs, w1) →
  ∃ chosen everything r r',
    only KCombine (trace_of (getCombinedDiff env sid ids t))
      = [call_combineDiffs (map toGitDiffResult chosen) r] ∧
    only KCombine (trace_of (getCombinedDiff env sid None t))
      = [call_combineDiffs (map toGitDiffResult everything) r'] ∧
    sublist chosen everything ∧
    sublist everything execs ∧
    (∀ i rest, ids = Some (i :: rest) →
       (∀ exec, In exec execs → ¬ In (rec_id exec) (i :: rest)) →
       chosen = []).
Proof.
  intros E1.
  set (nonempty := λ exec : ExecutionDiff, truthy_opt_string (rec_git_diff exec)).
  exists (List.filter nonempty (selectExecutions execs ids)),
         (List.filter nonempty execs).
  destruct (combineDiffs env
              (map toGitDiffResult (List.filter nonempty (selectExecutions execs ids)))
              w1) as [r w2] eqn:E2.
  destruct (combineDiffs env (map toGitDiffResult (List.filter nonempty execs)) w1)
    as [r' w2'] eqn:E3.
  exists r, r'. split; [|split; [|split; [|split]]].
  - unfold getCombinedDiff, bind, call. rewrite E1. simpl. fold nonempty.
    by rewrite E2.
  - unfold getCombinedDiff, bind, call. rewrite E1. simpl. fold nonempty.
    by rewrite E3.
  - apply filter_mono_sublist, selectExecutions_sublist.
  - apply filter_sublist.
  - intros i rest -> Hnone. unfold selectExecutions.
    rewrite bool_decide_eq_true_2 by (simpl; lia).
    assert (List.filter (λ exec, includes (i :: rest) (rec_id exec)) execs = [])
      as ->; [|done].
    clear E1 E2 E3. induction execs as [|exec execs IH]; [done|]. simpl.
    unfold includes at 1. rewrite bool_decide_eq_false_2.
    + apply IH. intros exec' Hin. apply Hnone. by right.
    + rewrite list_elem_of_In. apply Hnone. by left.
Qed.

(** *** The settings handed to the commit manager *)

(** X12.  The settings that the resolution of the commit mode yields
    always have a [checkpointPrefix] and a [mode]; every other entry, and
    any other value of [checkpointPrefix], comes from a payload of the
    session that parsed.  With an explicit mode and a payload that parses,
    each key of the payload other than [mode] overrides the default and the
    other defaults stay; a [mode] in the payload is ignored; a payload that
    is [null], a boolean or a number changes nothing. *)
Theorem resolved_settings_merge session t mode settings :
  outcome_of (resolveCommitMode env session t) = Returned (mode, settings) →
  settings !! "mode" = Some (JStr (mode_name mode)) ∧
  is_Some (settings !! "checkpointPrefix") ∧
  (∀ k v,
     k ≠ "mode" → settings !! k = Some v →
     defaultSettings !! k = Some v ∨
     ∃ s payload parsed,
       session = Some s ∧ is_Some (commitMode s) ∧
       commitModeSettings s = Some payload ∧
       JSON_parse env payload = Some parsed ∧ spread parsed !! k = Some v) ∧
  (∀ s m payload parsed,
     session = Some s → commitMode s = Some m →
     commitModeSettings s = Some payload → truthy_string payload = true →
     JSON_parse env payload = Some parsed →
     (∀ k, k ≠ "mode" →
        settings !! k = match spread parsed !! k with
                        | Some v => Some v
                        | None => defaultSettings !! k
                        end) ∧
     (match parsed with
      | JNull | JBool _ | JNum _ => settings = setMode m defaultSettings
      | _ => True
      end)).
Proof.
  destruct (resolveCommitMode env session t) as [[o t'] tr] eqn:Hrun.
  apply resolveCommitMode_inv in Hrun as (-> & _ & _).
  unfold outcome_of. simpl. intros [= <- <-].
  assert (∀ m (parsed : JsObject) k,
            k ≠ "mode" →
            setMode m (parsed ∪ defaultSettings) !! k
            = match parsed !! k with
              | Some v => Some v
              | None => defaultSettings !! k
              end) as Hmerge.
  { intros m parsed k Hk. unfold setMode. rewrite lookup_insert_ne by done.
    rewrite lookup_union. by destruct (parsed !! k), (defaultSettings !! k). }
  assert (∀ m k, k ≠ "mode" →
            setMode m defaultSettings !! k = defaultSettings !! k) as Hdefault.
  { intros m k Hk. unfold setMode. by rewrite lookup_insert_ne. }
  split; [|split; [|split]].
  - unfold spec_settings, spec_commitMode, setMode, defaultSettings.
    destruct session as [[[m|] payload [[|]|]]|]; simpl;
      repeat case_match; by rewrite ?lookup_insert_eq.
  - unfold spec_settings.
    destruct session as [[[m|] [payload|] [[|]|]]|]; simpl;
      try destruct (truthy_string payload);
      try destruct (JSON_parse env payload) as [parsed|];
      rewrite ?Hmerge, ?Hdefault by done;
      try destruct (spread parsed !! "checkpointPrefix"); by eexists.
  - intros k v Hk. unfold spec_settings.
    destruct session as [[[m|] [payload|] [[|]|]]|]; simpl;
      try destruct (truthy_string payload);
      try destruct (JSON_parse env payload) as [parsed|] eqn:Hparse;
      rewrite ?Hmerge, ?Hdefault by done; auto.
    all: destruct (spread parsed !! k) as [v'|] eqn:Hspread; auto.
    all: intros [= ->]; right; eexists _, payload, parsed; simpl; eauto 10.
  - intros s m payload parsed -> Hm Hpayload Htruthy Hparse.
    unfold spec_settings. rewrite Hm, Hpayload, Htruthy, Hparse. split.
    + intros k Hk. by apply Hmerge.
    + destruct parsed; try done; simpl; by rewrite (left_id_L ∅ (∪)).
Qed.

(** *** Runs that throw *)

(** X13.  A [startExecution] that throws has either registered nothing and
    emitted nothing, so that a context the session had before is still the
    one a later [endExecution] works with; or the error is that of a
    listener of [execution-started], and then the new context is
    registered all the same and the session is tracked. *)
Theorem startExecution_throws_when sid path marker prompt t e :
  outcome_of (startExecution env sid path marker prompt t) = Threw e →
  let run := startExecution env sid path marker prompt t in
  (activeExecutions (tracker_of run) = activeExecutions t ∧
   events_of (trace_of run) = [] ∧
   ∀ previous (w : W),
     activeExecutions t !! sid = Some previous →
     Forall (uses_context sid previous)
            (trace_of (endExecution env sid
                         (mkTracker (activeExecutions (tracker_of run)) w)))) ∨
  (∃ seq h,
     In (emitted (execution_started sid seq) (Threw e)) (trace_of run) ∧
     activeExecutions (tracker_of run)
       = <[sid := mkContext sid path marker h seq prompt]> (activeExecutions t) ∧
     outcome_of (isTracking sid (tracker_of run)) = Returned true).
Proof.
  cbv zeta.
  destruct (startExecution env sid path marker prompt t) as [[o t'] tr] eqn:Hrun.
  unfold outcome_of, tracker_of, trace_of. simpl. intros ->.
  apply startExecution_inv in Hrun
    as [(e' & w1 & _ & _ & -> & ->)
       | [(seq & w1 & e' & w2 & _ & _ & _ & -> & ->)
         | (seq & w1 & h & w2 & w3 & _ & _ & _ & -> & ->)]].
  1, 2: left; simpl; split; [done|]; split;
    [ rewrite !events_of_app; simpl; by rewrite ?events_of_app, !events_of_log_line
    | intros previous w Hprevious;
      by apply (tracked_run_uses_context sid previous (mkTracker _ w)) ].
  right. exists seq, h. split; [|split; [done|]].
  - apply in_or_app. right. apply in_or_app. right.
    apply in_or_app. right. by left.
  - unfold isTracking, registry_has. simpl.
    by rewrite lookup_insert_eq, bool_decide_eq_true_2.
Qed.

(** X14.  An [endExecution] for a tracked session that throws has either
    created no record and emitted no event; or it has created the record,
    and the error is that of a listener of [execution-completed].  Either
    way the session is no longer tracked, so the call cannot be retried. *)
Theorem endExecution_throws_when sid ctx t e :
  activeExecutions t !! sid = Some ctx →
  outcome_of (endExecution env sid t) = Threw e →
  activeExecutions (tracker_of (endExecution env sid t)) !! sid = None ∧
  ((events_of (trace_of (endExecution env sid t)) = [] ∧
    ∀ data created,
      ¬ In (call_createExecutionDiff data (Returned created))
           (trace_of (endExecution env sid t))) ∨
   ∃ executionDiff created,
     only KPersist (trace_of (endExecution env sid t))
       = [call_createExecutionDiff (diffDataOf sid ctx executionDiff)
            (Returned created)] ∧
     only KEmit (trace_of (endExecution env sid t))
       = [emitted (execution_completed sid (ctx_executionSequence ctx)
                     (rec_id created) (stats executionDiff)) (Threw e)]).
Proof.
  intros Hctx Hthrew. split.
  { rewrite endExecution_registry. apply lookup_delete_eq. }
  revert Hthrew. destruct (endExecution env sid t) as [[o t'] tr] eqn:Hrun.
  unfold trace_of, outcome_of. simpl. intros ->.
  rewrite (only_calls KPersist), (only_calls KEmit) by done.
  rewrite (events_of_calls tr).
  assert (∀ data created,
            ¬ In (call_createExecutionDiff data (Returned created)) (calls tr) →
            ¬ In (call_createExecutionDiff data (Returned created)) tr) as Hback.
  { intros data created Hnot Hin. apply Hnot. by apply in_calls. }
  phases Hctx Hrun.
  all: try (apply captureExecutionDiff_inv in HD as [(e' & ? & HD) | (h & HD)];
            simplify_eq; rewrite HD in *).
  all: try (apply persistAndComplete_inv in HE as [(e' & ? & HE) | (created & HE)];
            simplify_eq; rewrite HE in *).
  all: try (right; exists executionDiff, created; split; no_such;
            unfold capture_call; by case_bool_decide).
  all: left; split;
    [ rewrite ?events_of_app;
      rewrite ?(footprint_events _ _ FB), ?(footprint_events _ _ FW)
        by (simpl; intuition congruence);
      try done; unfold capture_call; by case_bool_decide
    | intros data created' Hin; revert Hin; apply Hback; intros Hin;
      locate Hin; unfold capture_call in *; by case_bool_decide ].
Qed.

End Facts.

(** * The results on the in-memory double *)

(** Looks for a call among the effects of a computed trace. *)
Ltac find_call := vm_compute; repeat first [by left | right].

(** The tracker states used below are the ones [startExecution] leaves
    behind on the double; the world of a tracker state is the world at
    the time of the next call, which the agent and the user have changed
    in between (files edited, the worktree removed). *)
Example trackingS1_reached session dirty agent :
  activeExecutions
    (tracker_of (startExecution demoEnv "s1" "/repo" None (Some "fix the bug")
                   (newTracker (demoRepo session dirty agent))))
  = activeExecutions (trackingS1 "/repo" (demoRepo session dirty agent)).
Proof. reflexivity. Qed.

Example trackingS1_reached_before_removal :
  activeExecutions
    (tracker_of (startExecution demoEnv "s1" "/gone" None (Some "fix the bug")
                   (newTracker (mkRepo "/gone" "a1" [] [] false 0
                                       (sessionIn checkpoint) [] None))))
  = activeExecutions (trackingS1 "/gone" (demoRepo (sessionIn checkpoint) [] None)).
Proof. reflexivity. Qed.

(** The scenarios of the specification. *)

(** Checkpoint mode, two files edited: the tracker commits them as [b2],
    captures the diff from [a1] to [b2], persists a record with two files
    changed and announces it with the id of that record. *)
Example checkpoint_scenario :
  let run := endExecution demoEnv "s1"
               (trackingS1 "/repo"
                  (demoRepo (sessionIn checkpoint) ["a.ts"; "b.ts"] None)) in
  outcome_of run = Returned tt ∧
  subtypes_of (trace_of run) = [autocommit_success] ∧
  only KCapture (trace_of run)
    = [call_captureCommitDiff "/repo" "a1" "b2"
         (Returned (demo_diff_of ["a.ts"; "b.ts"] (Some "a1") (Some "b2")))] ∧
  map stats_files_changed (persisted_of (trace_of run)) = [2] ∧
  events_of (trace_of run) = [execution_completed "s1" 1 1 (mkStats 2 0 2)] ∧
  activeExecutions (tracker_of run) !! "s1" = None.
Proof. vm_compute. repeat split. Qed.

(** Disabled mode, no commit: the working-directory diff is captured, a
    record is persisted and no message is written to the session output. *)
Example disabled_scenario :
  let run := endExecution demoEnv "s1"
               (trackingS1 "/repo" (demoRepo (sessionIn disabled) [] None)) in
  outcome_of run = Returned tt ∧
  subtypes_of (trace_of run) = [] ∧
  only KCapture (trace_of run)
    = [call_captureWorkingDirectoryDiff "/repo"
         (Returned (demo_diff_of [] (Some "a1") (Some "a1")))] ∧
  map stats_files_changed (persisted_of (trace_of run)) = [0].
Proof. vm_compute. repeat split. Qed.

(** Structured mode, the agent commits [c3] in time. *)
Example structured_commit_scenario :
  let run := endExecution demoEnv "s1"
               (trackingS1 "/repo"
                  (demoRepo (sessionIn structured) ["a.ts"] (Some "c3"))) in
  outcome_of run = Returned tt ∧
  subtypes_of (trace_of run) = [autocommit_mode; autocommit_claude_success] ∧
  only KCapture (trace_of run)
    = [call_captureCommitDiff "/repo" "a1" "c3"
         (Returned (demo_diff_of ["a.ts"] (Some "a1") (Some "c3")))].
Proof. vm_compute. repeat split. Qed.

(** Structured mode, the agent never commits: the diff is still captured,
    against the unchanged hash. *)
Example structured_timeout_scenario :
  let run := endExecution demoEnv "s1"
               (trackingS1 "/repo" (demoRepo (sessionIn structured) ["a.ts"] None)) in
  outcome_of run = Returned tt ∧
  subtypes_of (trace_of run) = [autocommit_mode; autocommit_timeout] ∧
  only KCapture (trace_of run)
    = [call_captureWorkingDirectoryDiff "/repo"
         (Returned (demo_diff_of ["a.ts"] (Some "a1") (Some "a1")))] ∧
  length (persisted_of (trace_of run)) = 1%nat.
Proof. vm_compute. repeat split. Qed.

(** Checkpoint mode with git refusing to commit: the failure is reported
    and the run completes with the uncommitted files in its record. *)
Example failed_commit_scenario :
  let run := endExecution demoEnv "s1"
               (trackingS1 "/repo"
                  (lockedRepo (sessionIn checkpoint) ["a.ts"; "b.ts"])) in
  outcome_of run = Returned tt ∧
  subtypes_of (trace_of run) = [autocommit_error] ∧
  map stats_files_changed (persisted_of (trace_of run)) = [2].
Proof. vm_compute. repeat split. Qed.

(** Settings that parse are merged over the defaults; settings that do not
    are ignored, and the run completes all the same. *)
Example merged_settings_scenario :
  spec_settings demo_parse
    (Some (mkSession (Some checkpoint) (Some prefix_payload) None))
    !! "checkpointPrefix" = Some (JStr "wip: ") ∧
  spec_settings demo_parse (Some (mkSession (Some checkpoint) (Some "{oops") None))
    !! "checkpointPrefix" = Some (JStr "checkpoint: ") ∧
  outcome_of (endExecution demoEnv "s1"
                (trackingS1 "/repo"
                   (demoRepo (Some (mkSession (Some checkpoint) (Some "{oops") None))
                             ["a.ts"] None))) = Returned tt.
Proof. vm_compute. repeat split. Qed.

(** The worktree is gone when the run ends: the error of the hash read
    reaches the caller, nothing is persisted or announced, and the session
    is no longer tracked. *)
Example removed_worktree_scenario :
  let run := endExecution demoEnv "s1"
               (trackingS1 "/gone" (demoRepo (sessionIn checkpoint) [] None)) in
  outcome_of run = Threw (Thrown "not a git repository") ∧
  persisted_of (trace_of run) = [] ∧
  events_of (trace_of run) = [] ∧
  outcome_of (isTracking "s1" (tracker_of run)) = Returned false.
Proof. vm_compute. repeat split. Qed.

(** Of the three records of the session, the two with a diff are combined;
    asking for the records 1 and 2 combines the first only. *)
Example combined_diff_scenario :
  match outcome_of (getCombinedDiff demoEnv "s1" None (newTracker repoWithRecords)) with
  | Returned d => Some (stats d, changedFiles d)
  | Threw _ => None
  end = Some (mkStats 8 1 2, ["a.ts"]) ∧
  match outcome_of (getCombinedDiff demoEnv "s1" (Some [1; 2])
                      (newTracker repoWithRecords)) with
  | Returned d => Some (stats d, changedFiles d)
  | Threw _ => None
  end = Some (mkStats 3 1 1, ["a.ts"]).
Proof. vm_compute. repeat split. Qed.

Lemma isTracking_lifecycle_witness :
  outcome_of (startExecution demoEnv "s1" "/repo" None None
                (newTracker (demoRepo None [] None))) = Returned tt ∧
  outcome_of (isTracking "s1"
                (tracker_of (startExecution demoEnv "s1" "/repo" None None
                               (newTracker (demoRepo None [] None)))))
    = Returned true.
Proof.
  split; [vm_compute; reflexivity|].
  apply (proj1 (proj2 (isTracking_lifecycle demoEnv "s1"))).
  vm_compute; reflexivity.
Defined.

Lemma startExecution_baseline_witness :
  (getNextExecutionSequence demoEnv "s1" (demoRepo None [] None)
     = (Returned 1, mkRepo "/repo" "a1" [] [] false 1 None [] None) ∧
   getCurrentCommitHash demoEnv "/repo" (mkRepo "/repo" "a1" [] [] false 1 None [] None)
     = (Returned "a1", mkRepo "/repo" "a1" [] [] false 1 None [] None) ∧
   events_of (trace_of (startExecution demoEnv "s1" "/repo" None None
                          (newTracker (demoRepo None [] None))))
     = [execution_started "s1" 1]) ∧
  (getNextExecutionSequence lockedStoreEnv "s1" (demoRepo None [] None)
     = (Threw (Thrown "database is locked"), demoRepo None [] None) ∧
   outcome_of (startExecution lockedStoreEnv "s1" "/repo" None None
                 (newTracker (demoRepo None [] None)))
     = Threw (Thrown "database is locked")) ∧
  (getCurrentCommitHash demoEnv "/gone" (mkRepo "/repo" "a1" [] [] false 1 None [] None)
     = (Threw (Thrown "not a git repository"),
        mkRepo "/repo" "a1" [] [] false 1 None [] None) ∧
   outcome_of (startExecution demoEnv "s1" "/gone" None None
                 (newTracker (demoRepo None [] None)))
     = Threw (Thrown "not a git repository")).
Proof.
  split; [|split].
  - split; [reflexivity|]. split; [reflexivity|].
    apply (proj1 (startExecution_baseline demoEnv "s1" "/repo" None None
                    (newTracker (demoRepo None [] None)))
                 1 (mkRepo "/repo" "a1" [] [] false 1 None [] None)
                 "a1" (mkRepo "/repo" "a1" [] [] false 1 None [] None));
      reflexivity.
  - split; [reflexivity|].
    apply (proj1 (proj2 (startExecution_baseline lockedStoreEnv "s1" "/repo" None None
                           (newTracker (demoRepo None [] None))))
                 (Thrown "database is locked") (demoRepo None [] None));
      reflexivity.
  - split; [reflexivity|].
    apply (proj2 (proj2 (startExecution_baseline demoEnv "s1" "/gone" None None
                           (newTracker (demoRepo None [] None))))
                 1 (mkRepo "/repo" "a1" [] [] false 1 None [] None)
                 (Thrown "not a git repository")
                 (mkRepo "/repo" "a1" [] [] false 1 None [] None));
      reflexivity.
Defined.

Lemma startExecution_overwrites_witness :
  outcome_of (startExecution demoEnv "s1" "/repo" (Some 7) (Some "first")
                (newTracker (demoRepo None [] None))) = Returned tt ∧
  ∃ seq h,
    activeExecutions
      (tracker_of
         (startExecution demoEnv "s1" "/repo" None None
            (tracker_of (startExecution demoEnv "s1" "/repo" (Some 7) (Some "first")
                           (newTracker (demoRepo None [] None)))))) !! "s1"
    = Some (mkContext "s1" "/repo" None h seq None).
Proof.
  split; [vm_compute; reflexivity|].
  destruct (startExecution_overwrites demoEnv "s1" "/repo" (Some 7) (Some "first")
              "/repo" None None (newTracker (demoRepo None [] None)))
    as (seq & h & _ & _ & Hctx & _); [vm_compute; reflexivity..|].
  exists seq, h. exact Hctx.
Defined.

Lemma no_active_context_noop_witness :
  activeExecutions (newTracker (demoRepo None [] None)) !! "s1" = None ∧
  endExecution demoEnv "s1" (newTracker (demoRepo None [] None))
    = (Returned tt, newTracker (demoRepo None [] None), [logged warn]) ∧
  cancelExecution demoEnv "s1" (newTracker (demoRepo None [] None))
    = (Returned tt, newTracker (demoRepo None [] None), []).
Proof.
  split; [reflexivity|].
  destruct (no_active_context_noop demoEnv "s1" (newTracker (demoRepo None [] None)))
    as (Hend & _ & _ & Hcancel); [reflexivity|].
  split; [exact Hend | exact Hcancel].
Defined.

Lemma getCombinedDiff_selects_witness :
  getExecutionDiffs demoEnv "s1" (world (newTracker repoWithRecords))
    = (Returned demoRecords, repoWithRecords) ∧
  ∃ ds r,
    only KCombine (trace_of (getCombinedDiff demoEnv "s1" (Some [1; 2])
                               (newTracker repoWithRecords)))
      = [call_combineDiffs ds r] ∧
    (∀ d, In d ds → diff d ≠ "").
Proof.
  split; [reflexivity|].
  destruct (getCombinedDiff_selects demoEnv "s1" (Some [1; 2])
              (newTracker repoWithRecords) demoRecords repoWithRecords)
    as (ds & r & w2 & Hrun & _ & _ & Hnonempty & _); [reflexivity|].
  exists ds, r. split; [|exact Hnonempty]. rewrite Hrun. reflexivity.
Defined.

Lemma diff_capture_choice_witness :
  activeExecutions
    (trackingS1 "/repo" (demoRepo (sessionIn checkpoint) ["a.ts"; "b.ts"] None))
    !! "s1" = Some (mkContext "s1" "/repo" None "a1" 1 (Some "fix the bug")) ∧
  ∃ r,
    only KCapture
      (trace_of (endExecution demoEnv "s1"
                   (trackingS1 "/repo"
                      (demoRepo (sessionIn checkpoint) ["a.ts"; "b.ts"] None))))
    = [call_captureCommitDiff "/repo" "a1" "b2" r].
Proof.
  split; [reflexivity|].
  destruct (diff_capture_choice demoEnv "s1"
              (mkContext "s1" "/repo" None "a1" 1 (Some "fix the bug"))
              (trackingS1 "/repo" (demoRepo (sessionIn checkpoint) ["a.ts"; "b.ts"] None))
              "b2")
    as (r & before & after & settings & cr & _ & _ & _ & Hcapture);
    [reflexivity | find_call |].
  exists r. exact Hcapture.
Defined.

Lemma structured_wait_witness :
  activeExecutions
    (trackingS1 "/repo" (demoRepo (sessionIn structured) [] (Some "c3")))
    !! "s1" = Some (mkContext "s1" "/repo" None "a1" 1 (Some "fix the bug")) ∧
  ∃ r,
    In (call_waitForStructuredCommit "s1" "/repo" 5000 r)
       (calls (trace_of (endExecution demoEnv "s1"
                           (trackingS1 "/repo"
                              (demoRepo (sessionIn structured) [] (Some "c3")))))).
Proof.
  split; [reflexivity|].
  destruct (structured_wait demoEnv "s1"
              (mkContext "s1" "/repo" None "a1" 1 (Some "fix the bug"))
              (trackingS1 "/repo" (demoRepo (sessionIn structured) [] (Some "c3")))
              (sessionIn structured)
              (spec_settings demo_parse (sessionIn structured))
              (mkCommitResult true None None))
    as [_ Hwait]; [reflexivity | find_call | find_call |].
  destruct (Hwait eq_refl) as [(data & e & _ & _ & Hthrew & _)
                              | (r & before & after & Hcalls & _)].
  - vm_compute in Hthrew. discriminate Hthrew.
  - exists r. rewrite Hcalls. apply in_or_app. right. by left.
Defined.

Lemma session_output_table_witness :
  activeExecutions
    (trackingS1 "/repo" (demoRepo (sessionIn checkpoint) ["a.ts"; "b.ts"] None))
    !! "s1" = Some (mkContext "s1" "/repo" None "a1" 1 (Some "fix the bug")) ∧
  In autocommit_success
     (subtypes_of
        (trace_of (endExecution demoEnv "s1"
                     (trackingS1 "/repo"
                        (demoRepo (sessionIn checkpoint) ["a.ts"; "b.ts"] None))))).
Proof.
  split; [reflexivity|].
  destruct (session_output_table demoEnv "s1"
              (mkContext "s1" "/repo" None "a1" 1 (Some "fix the bug"))
              (trackingS1 "/repo" (demoRepo (sessionIn checkpoint) ["a.ts"; "b.ts"] None))
              (sessionIn checkpoint)
              (spec_settings demo_parse (sessionIn checkpoint))
              (mkCommitResult true (Some "b2") None))
    as (_ & Hsuccess & _); [reflexivity | find_call | find_call |].
  apply Hsuccess. split; reflexivity.
Defined.

Lemma commit_mode_resolution_witness :
  JSON_parse demoEnv "{oops" = None ∧
  ∃ settings,
    outcome_of (resolveCommitMode demoEnv
                  (Some (mkSession (Some structured) (Some "{oops") (Some true)))
                  (newTracker (demoRepo None [] None)))
      = Returned (structured, settings) ∧
    settings = setMode structured defaultSettings.
Proof.
  split; [reflexivity|].
  destruct (commit_mode_resolution demoEnv
              (Some (mkSession (Some structured) (Some "{oops") (Some true)))
              (newTracker (demoRepo None [] None)))
    as (mode & settings & Hout & _ & _ & _ & _ & _ & Hexplicit & _ & Hmalformed & _).
  exists settings.
  rewrite (Hexplicit _ structured eq_refl eq_refl) in Hout.
  split; [exact Hout|].
  exact (proj1 (Hmalformed _ structured "{oops" eq_refl eq_refl eq_refl eq_refl)).
Defined.

Lemma endExecution_persists_one_witness :
  activeExecutions
    (trackingS1 "/repo" (demoRepo (sessionIn checkpoint) ["a.ts"; "b.ts"] None))
    !! "s1" = Some (mkContext "s1" "/repo" None "a1" 1 (Some "fix the bug")) ∧
  outcome_of (endExecution demoEnv "s1"
                (trackingS1 "/repo"
                   (demoRepo (sessionIn checkpoint) ["a.ts"; "b.ts"] None)))
    = Returned tt ∧
  length (persisted_of
            (trace_of (endExecution demoEnv "s1"
                         (trackingS1 "/repo"
                            (demoRepo (sessionIn checkpoint) ["a.ts"; "b.ts"] None)))))
    = 1%nat.
Proof.
  split; [reflexivity|]. split; [vm_compute; reflexivity|].
  destruct (endExecution_persists_one demoEnv "s1"
              (mkContext "s1" "/repo" None "a1" 1 (Some "fix the bug"))
              (trackingS1 "/repo" (demoRepo (sessionIn checkpoint) ["a.ts"; "b.ts"] None)))
    as [_ Hone]; [reflexivity|].
  destruct Hone as (h & d & created & _ & _ & _ & Hpersisted & _);
    [vm_compute; reflexivity|].
  rewrite Hpersisted. reflexivity.
Defined.

(** The unconditional form fails on the double in two ways.  First: the
    worktree of the session is gone when the run ends, so the hash re-read
    throws, and no record is persisted.  Second: in disabled mode with two
    files edited and no commit made, the hash after the run is the hash
    before it, and the record persisted has two files changed. *)
Lemma persists_one_unconditionally_counterexample :
  ¬ persists_one_unconditionally demoEnv "s1"
      (trackingS1 "/gone" (demoRepo (sessionIn checkpoint) [] None)) ∧
  ¬ persists_one_unconditionally demoEnv "s1"
      (trackingS1 "/repo" (demoRepo (sessionIn disabled) ["a.ts"; "b.ts"] None)).
Proof.
  split; intros Hclaim.
  - destruct (Hclaim (mkContext "s1" "/gone" None "a1" 1 (Some "fix the bug")) eq_refl)
      as (d & created & Hone & _).
    vm_compute in Hone. discriminate Hone.
  - destruct (Hclaim (mkContext "s1" "/repo" None "a1" 1 (Some "fix the bug")) eq_refl)
      as (d & created & Hone & Hzero & _).
    vm_compute in Hone. injection Hone as <- _.
    assert (2 = 0) as Habsurd; [|discriminate Habsurd].
    apply Hzero. find_call.
Qed.

(** ** The further results on the double *)

Lemma cancelExecution_forgets_then_notifies_witness :
  activeExecutions (trackingS1 "/repo" (demoRepo None ["a.ts"] None)) !! "s1"
    = Some (mkContext "s1" "/repo" None "a1" 1 (Some "fix the bug")) ∧
  events_of (trace_of (cancelExecution failingListenerEnv "s1"
                         (trackingS1 "/repo" (demoRepo None ["a.ts"] None))))
    = [execution_cancelled "s1" 1] ∧
  activeExecutions
    (tracker_of (cancelExecution failingListenerEnv "s1"
                   (trackingS1 "/repo" (demoRepo None ["a.ts"] None)))) !! "s1"
    = None.
Proof.
  split; [reflexivity|].
  destruct (cancelExecution_forgets_then_notifies failingListenerEnv "s1"
              (mkContext "s1" "/repo" None "a1" 1 (Some "fix the bug"))
              (trackingS1 "/repo" (demoRepo None ["a.ts"] None)))
    as (_ & Hevents & _ & _ & _ & Hforgotten); [reflexivity|].
  split; [exact Hevents | exact Hforgotten].
Defined.

Lemma registry_effects_witness :
  "s2" ≠ "s1" ∧
  activeExecutions
    (tracker_of (endExecution demoEnv "s1"
                   (trackingS1 "/repo" (demoRepo None [] None)))) !! "s2"
  = activeExecutions (trackingS1 "/repo" (demoRepo None [] None)) !! "s2".
Proof.
  assert ("s2" ≠ "s1") as Hother by (intros Heq; discriminate Heq).
  split; [exact Hother|].
  destruct (registry_effects demoEnv "s1"
              (trackingS1 "/repo" (demoRepo None [] None)))
    as (_ & _ & _ & _ & _ & Hothers).
  exact (proj1 (proj2 (Hothers "s2" "/repo" None None Hother))).
Defined.

Lemma registry_stays_keyed_witness :
  registry_keyed (activeExecutions (trackingS1 "/repo" (demoRepo None [] None))) ∧
  registry_keyed
    (activeExecutions
       (tracker_of (startExecution demoEnv "s2" "/repo" None None
                      (trackingS1 "/repo" (demoRepo None [] None))))).
Proof.
  assert (registry_keyed
            (activeExecutions (trackingS1 "/repo" (demoRepo None [] None))))
    as Hkeyed.
  { intros sid ctx Hlookup. simpl in Hlookup.
    apply lookup_singleton_Some in Hlookup as [<- <-]. reflexivity. }
  split; [exact Hkeyed|].
  exact (proj1 (registry_stays_keyed demoEnv "s2"
                  (trackingS1 "/repo" (demoRepo None [] None)) Hkeyed)
               "/repo" None None).
Defined.

Lemma endExecution_uses_only_its_context_witness :
  activeExecutions
    (trackingS1 "/repo" (demoRepo (sessionIn structured) ["a.ts"] (Some "c3")))
    !! "s1" = Some (mkContext "s1" "/repo" None "a1" 1 (Some "fix the bug")) ∧
  Forall (uses_context "s1" (mkContext "s1" "/repo" None "a1" 1 (Some "fix the bug")))
         (trace_of (endExecution demoEnv "s1"
                      (trackingS1 "/repo"
                         (demoRepo (sessionIn structured) ["a.ts"] (Some "c3"))))).
Proof.
  split; [reflexivity|].
  apply (endExecution_uses_only_its_context demoEnv "s1"
           (mkContext "s1" "/repo" None "a1" 1 (Some "fix the bug"))
           (trackingS1 "/repo" (demoRepo (sessionIn structured) ["a.ts"] (Some "c3")))).
  reflexivity.
Defined.

Lemma start_then_end_or_cancel_witness :
  outcome_of (startExecution demoEnv "s1" "/repo" (Some 7) (Some "fix the bug")
                (newTracker (demoRepo (sessionIn checkpoint) [] None)))
    = Returned tt ∧
  ∃ seq h,
    events_of
      (trace_of
         (cancelExecution demoEnv "s1"
            (mkTracker
               (activeExecutions
                  (tracker_of
                     (startExecution demoEnv "s1" "/repo" (Some 7) (Some "fix the bug")
                        (newTracker (demoRepo (sessionIn checkpoint) [] None)))))
               (demoRepo (sessionIn checkpoint) ["a.ts"] None))))
    = [execution_cancelled "s1" seq] ∧
    In (call_getCurrentCommitHash "/repo" (Returned h))
       (trace_of (startExecution demoEnv "s1" "/repo" (Some 7) (Some "fix the bug")
                    (newTracker (demoRepo (sessionIn checkpoint) [] None)))).
Proof.
  split; [reflexivity|].
  destruct (start_then_end_or_cancel demoEnv "s1" "/repo" (Some 7)
              (Some "fix the bug")
              (newTracker (demoRepo (sessionIn checkpoint) [] None)))
    as (seq & h & _ & Hhash & Hlater); [reflexivity|].
  exists seq, h. split; [|exact Hhash].
  exact (proj2 (proj2 (Hlater (demoRepo (sessionIn checkpoint) ["a.ts"] None)))).
Defined.

Lemma getCombinedDiff_ids_as_set_witness :
  (∀ id, In id [1; 3] ↔ In id [3; 1; 3]) ∧
  getCombinedDiff demoEnv "s1" (Some [1; 3]) (newTracker repoWithRecords)
  = getCombinedDiff demoEnv "s1" (Some [3; 1; 3]) (newTracker repoWithRecords).
Proof.
  assert (∀ id : Z, In id [1; 3] ↔ In id [3; 1; 3]) as Hsame
    by (intros id; simpl; tauto).
  split; [exact Hsame|].
  exact (getCombinedDiff_ids_as_set demoEnv "s1" [1; 3] [3; 1; 3]
           (newTracker repoWithRecords) Hsame).
Defined.

Lemma getCombinedDiff_keeps_order_witness :
  getExecutionDiffs demoEnv "s1" (world (newTracker repoWithRecords))
    = (Returned demoRecords, repoWithRecords) ∧
  ∃ chosen r,
    only KCombine (trace_of (getCombinedDiff demoEnv "s1" (Some [3; 1])
                               (newTracker repoWithRecords)))
      = [call_combineDiffs (map toGitDiffResult chosen) r] ∧
    sublist chosen demoRecords.
Proof.
  split; [reflexivity|].
  destruct (getCombinedDiff_keeps_order demoEnv "s1" (Some [3; 1])
              (newTracker repoWithRecords) demoRecords repoWithRecords)
    as (chosen & everything & r & r' & Hchosen & _ & Hsub1 & Hsub2 & _);
    [reflexivity|].
  exists chosen, r. split; [exact Hchosen|].
  transitivity everything; [exact Hsub1 | exact Hsub2].
Defined.

Lemma resolved_settings_merge_witness :
  outcome_of (resolveCommitMode demoEnv
                (Some (mkSession (Some structured) (Some prefix_payload) (Some true)))
                (newTracker (demoRepo None [] None)))
    = Returned (structured,
                setMode structured
                  (spread (JObj [("checkpointPrefix", JStr "wip: ")])
                     ∪ defaultSettings)) ∧
  setMode structured
    (spread (JObj [("checkpointPrefix", JStr "wip: ")]) ∪ defaultSettings)
    !! "mode" = Some (JStr "structured").
Proof.
  assert (outcome_of
            (resolveCommitMode demoEnv
               (Some (mkSession (Some structured) (Some prefix_payload) (Some true)))
               (newTracker (demoRepo None [] None)))
          = Returned (structured,
                      setMode structured
                        (spread (JObj [("checkpointPrefix", JStr "wip: ")])
                           ∪ defaultSettings))) as Hout
    by (vm_compute; reflexivity).
  split; [exact Hout|].
  exact (proj1 (resolved_settings_merge demoEnv _ _ _ _ Hout)).
Defined.

Lemma startExecution_throws_when_witness :
  outcome_of (startExecution failingListenerEnv "s1" "/repo" None None
                (newTracker (demoRepo None [] None)))
    = Threw (Thrown "listener failed") ∧
  outcome_of (startExecution lockedStoreEnv "s1" "/repo" None None
                (trackingS1 "/repo" (demoRepo None [] None)))
    = Threw (Thrown "database is locked") ∧
  (outcome_of
     (isTracking "s1"
        (tracker_of (startExecution failingListenerEnv "s1" "/repo" None None
                       (newTracker (demoRepo None [] None)))))
     = Returned true) ∧
  (events_of (trace_of (startExecution lockedStoreEnv "s1" "/repo" None None
                          (trackingS1 "/repo" (demoRepo None [] None))))
   = []).
Proof.
  split; [reflexivity|]. split; [reflexivity|]. split.
  - destruct (startExecution_throws_when failingListenerEnv "s1" "/repo" None None
                (newTracker (demoRepo None [] None)) (Thrown "listener failed"))
      as [(_ & Hevents & _)|(seq & h & _ & _ & Htracked)]; [reflexivity | |].
    + vm_compute in Hevents. discriminate Hevents.
    + exact Htracked.
  - destruct (startExecution_throws_when lockedStoreEnv "s1" "/repo" None None
                (trackingS1 "/repo" (demoRepo None [] None))
                (Thrown "database is locked"))
      as [(_ & Hevents & _)|(seq & h & Hemitted & _)]; [reflexivity | |].
    + exact Hevents.
    + vm_compute in Hemitted. exfalso.
      repeat destruct Hemitted as [Hemitted|Hemitted]; try discriminate Hemitted.
      exact Hemitted.
Defined.

Lemma endExecution_throws_when_witness :
  activeExecutions
    (trackingS1 "/repo" (demoRepo (sessionIn checkpoint) ["a.ts"] None)) !! "s1"
    = Some (mkContext "s1" "/repo" None "a1" 1 (Some "fix the bug")) ∧
  outcome_of (endExecution failingListenerEnv "s1"
                (trackingS1 "/repo" (demoRepo (sessionIn checkpoint) ["a.ts"] None)))
    = Threw (Thrown "listener failed") ∧
  activeExecutions
    (tracker_of (endExecution failingListenerEnv "s1"
                   (trackingS1 "/repo"
                      (demoRepo (sessionIn checkpoint) ["a.ts"] None)))) !! "s1"
    = None.
Proof.
  split; [reflexivity|]. split; [vm_compute; reflexivity|].
  apply (endExecution_throws_when failingListenerEnv "s1"
           (mkContext "s1" "/repo" None "a1" 1 (Some "fix the bug"))
           (trackingS1 "/repo" (demoRepo (sessionIn checkpoint) ["a.ts"] None))
           (Thrown "listener failed")); [reflexivity | vm_compute; reflexivity].
Defined.
